(** * The article store of the text-summarization demo

    A shallow embedding of [MockDatabase] (src/0104.py, lines 148-247):
    the JSON-file backed collection of sample articles, with its loader,
    its three read operations and [add_article].

    Modelling choices, all read off the source:
    - a Python [str] is a [string] whose characters are the code points
      [0..255]; [strip] and [lower] are Python's on that range;
    - an article is the four-key dict that the seed data and [add_article]
      build; the store's [data] is a dict from keys to article lists, as
      the annotation [Dict[str, List[Dict]]] of [_load_data] says;
    - Python integers are unbounded, hence [Z];
    - the file system is a finite map from paths to file contents; a write
      can fail, and an exception leaves every mutation made before it in
      place, so each operation returns the final state together with
      either its value or the exception raised. *)

From stdpp Require Import gmap strings list fin_maps.
From Stdlib Require Import ZArith Ascii String.

Open Scope Z_scope.

(** ** Python strings *)

(** [str.isspace] on one code point below 256: the ASCII white space
    (TAB, LF, VT, FF, CR, FS, GS, RS, US, SPACE), NEL (0x85) and
    NBSP (0xA0). *)
Definition isspace (c : ascii) : bool :=
  let n := N_of_ascii c in
  ((9 <=? n) && (n <=? 13) || (28 <=? n) && (n <=? 32)
   || (n =? 133) || (n =? 160))%N.

(** [str.lstrip()]: drop the leading white space. *)
Fixpoint lstrip (s : string) : string :=
  match s with
  | EmptyString => EmptyString
  | String c r => if isspace c then lstrip r else s
  end.

(** [str.rstrip()]: drop the trailing white space. *)
Fixpoint rstrip (s : string) : string :=
  match s with
  | EmptyString => EmptyString
  | String c r =>
      match rstrip r with
      | EmptyString => if isspace c then EmptyString else String c EmptyString
      | r' => String c r'
      end
  end.

(** [str.strip()] with no argument. *)
Definition strip (s : string) : string := rstrip (lstrip s).

(** [str.lower()] on one code point below 256: [A-Z] and the accented
    capitals 0xC0-0xDE (the multiplication sign 0xD7 apart) move up by 32. *)
Definition lower_char (c : ascii) : ascii :=
  let n := N_of_ascii c in
  if ((65 <=? n) && (n <=? 90)
      || (192 <=? n) && (n <=? 222) && negb (n =? 215))%N
  then ascii_of_N (n + 32) else c.

Fixpoint lower (s : string) : string :=
  match s with
  | EmptyString => EmptyString
  | String c r => String (lower_char c) (lower r)
  end.

(** Two characters that are the same letter, in either case. *)
Definition same_letter (a b : ascii) : Prop :=
  a = b ∨ lower_char a = b ∨ a = lower_char b.

(** Two strings that differ in letter case only. *)
Fixpoint differ_in_case_only (s t : string) : Prop :=
  match s, t with
  | EmptyString, EmptyString => True
  | String a s', String b t' => same_letter a b ∧ differ_in_case_only s' t'
  | _, _ => False
  end.

Global Instance same_letter_dec : RelDecision same_letter.
Proof. intros a b. unfold same_letter. apply _. Defined.

Global Instance differ_in_case_only_dec : RelDecision differ_in_case_only.
Proof.
  intros s. induction s as [|a s IH]; intros [|b t]; simpl; apply _.
Defined.

(** ** Articles and the store's data *)

Record Article := mkArticle {
  id : Z;
  title : string;
  content : string;
  category : string
}.

Global Instance Article_eq_dec : EqDecision Article.
Proof. solve_decision. Defined.

(** The parsed JSON document: [{"articles": [...]}]. *)
Abbreviation Data := (gmap string (list Article)).

(** [max(xs, default=d)]. *)
Definition py_max (xs : list Z) (d : Z) : Z :=
  match xs with
  | [] => d
  | x :: r => fold_left Z.max r x
  end.

(** ** Exceptions and stateful operations *)

Inductive exn := OSError | JSONDecodeError.

Inductive outcome (A : Type) :=
  | Ret (a : A)
  | Raise (e : exn).
Arguments Ret {A} a.
Arguments Raise {A} e.

(** An operation over a state [S]: it ends with a value or an exception,
    and the state it leaves behind in both cases. *)
Definition M (S A : Type) : Type := S → outcome A * S.

Global Instance M_ret {S} : MRet (M S) := λ A a s, (Ret a, s).

Global Instance M_bind {S} : MBind (M S) := λ A B f m s,
  match m s with
  | (Ret a, s') => f a s'
  | (Raise e, s') => (Raise e, s')
  end.

(** ** The file system *)

Inductive file_content :=
  | JsonDoc (d : Data)   (* the text [json.dump] writes for [d] *)
  | Malformed.           (* anything [json.load] rejects *)

(** How a write to a path goes wrong: [open(path, 'w')] raises and the
    file is untouched, or [json.dump] raises after the file was truncated. *)
Inductive write_fault := OpenFails | DumpFails.

Record FileSystem := mkFS {
  files : gmap string file_content;
  faults : gmap string write_fault
}.

(** [with open(path, 'w') as f: json.dump(data, f, ...)]. *)
Definition _save_data (path : string) (d : Data) : M FileSystem () :=
  λ fs,
    match faults fs !! path with
    | Some OpenFails => (Raise OSError, fs)
    | Some DumpFails =>
        (Raise OSError, mkFS (<[path := Malformed]> (files fs)) (faults fs))
    | None => (Ret (), mkFS (<[path := JsonDoc d]> (files fs)) (faults fs))
    end.

(** ** Seed data (lines 162-206) *)

Definition NL : string := String "010" EmptyString.
Definition indent : string := "                        ".

Definition seed_content_1 : string :=
  NL
  +:+ indent +:+ "Artificial Intelligence (AI) is rapidly transforming our world. " +:+ NL
  +:+ indent +:+ "From self-driving cars and personalized recommendations to virtual assistants and automated customer service, " +:+ NL
  +:+ indent +:+ "AI applications are everywhere. The technology uses algorithms and large datasets to learn patterns, " +:+ NL
  +:+ indent +:+ "make decisions, and even generate human-like text and images. While AI offers immense potential, " +:+ NL
  +:+ indent +:+ "it also raises ethical concerns around bias, job displacement, and privacy. " +:+ NL
  +:+ indent +:+ "Understanding how AI works is becoming increasingly important for both individuals and organizations." +:+ NL
  +:+ indent.

Definition seed_content_2 : string :=
  NL
  +:+ indent +:+ "Climate change represents one of the most pressing challenges of our time. " +:+ NL
  +:+ indent +:+ "Rising global temperatures, melting ice caps, and extreme weather events are clear indicators " +:+ NL
  +:+ indent +:+ "of the urgent need for action. Renewable energy sources like solar, wind, and hydroelectric power " +:+ NL
  +:+ indent +:+ "offer promising solutions to reduce greenhouse gas emissions. Governments worldwide are implementing " +:+ NL
  +:+ indent +:+ "policies to accelerate the transition to clean energy, while businesses are investing heavily " +:+ NL
  +:+ indent +:+ "in sustainable technologies. The shift towards renewable energy not only helps combat climate change " +:+ NL
  +:+ indent +:+ "but also creates new economic opportunities and jobs in the green energy sector." +:+ NL
  +:+ indent.

Definition seed_content_3 : string :=
  NL
  +:+ indent +:+ "The COVID-19 pandemic fundamentally changed how we work, accelerating the adoption of remote work " +:+ NL
  +:+ indent +:+ "technologies and practices. Companies that previously resisted remote work were forced to adapt quickly, " +:+ NL
  +:+ indent +:+ "implementing video conferencing, cloud-based collaboration tools, and flexible work arrangements. " +:+ NL
  +:+ indent +:+ "Studies show that remote work can increase productivity and employee satisfaction while reducing " +:+ NL
  +:+ indent +:+ "overhead costs for businesses. However, challenges remain, including maintaining company culture, " +:+ NL
  +:+ indent +:+ "ensuring effective communication, and addressing the digital divide. As we move forward, hybrid work " +:+ NL
  +:+ indent +:+ "models that combine remote and in-office work are becoming the new standard." +:+ NL
  +:+ indent.

Definition default_articles : list Article :=
  [ mkArticle 1 "Artificial Intelligence Revolution" seed_content_1 "Technology";
    mkArticle 2 "Climate Change and Renewable Energy" seed_content_2 "Environment";
    mkArticle 3 "The Future of Remote Work" seed_content_3 "Business" ].

Definition default_data : Data := {[ "articles" := default_articles ]}.

(** [_load_data]: parse the file when it exists, else write the seed data
    and return it. *)
Definition _load_data (path : string) : M FileSystem Data :=
  λ fs,
    match files fs !! path with
    | Some (JsonDoc d) => (Ret d, fs)
    | Some Malformed => (Raise JSONDecodeError, fs)
    | None => (_save_data path default_data ;; mret default_data) fs
    end.

(** ** The store object *)

Record MockDatabase := mkDB {
  db_path : string;
  data : Data
}.

(** [MockDatabase(db_path)]. *)
Definition __init__ (path : string) : M FileSystem MockDatabase :=
  d ← _load_data path; mret (mkDB path d).

(** A store object next to the disk it reads and writes. *)
Record State := mkState {
  self : MockDatabase;
  disk : FileSystem
}.

(** [self.data.get(key, default)]. *)
Definition data_get (key : string) (dflt : list Article)
  : M State (list Article) :=
  λ st, (Ret (default dflt (data (self st) !! key)), st).

(** [self.data[key] = value]. *)
Definition data_set (key : string) (value : list Article) : M State () :=
  λ st,
    (Ret (),
     mkState (mkDB (db_path (self st)) (<[key := value]> (data (self st))))
             (disk st)).

(** [self._save_data(self.data)]: the write goes to [self.db_path] and
    touches the disk only. *)
Definition save_self : M State () :=
  λ st,
    let '(r, fs) := _save_data (db_path (self st)) (data (self st)) (disk st) in
    (r, mkState (self st) fs).

(** ** The operations *)

Definition get_all_articles : M State (list Article) :=
  data_get "articles" [].

(** The [for] loop of [get_article_by_id]: the first article with the id. *)
Fixpoint scan_by_id (articles : list Article) (article_id : Z)
  : option Article :=
  match articles with
  | [] => None
  | article :: rest =>
      if decide (id article = article_id) then Some article
      else scan_by_id rest article_id
  end.

Definition get_article_by_id (article_id : Z) : M State (option Article) :=
  articles ← data_get "articles" [];
  mret (scan_by_id articles article_id).

Definition get_articles_by_category (cat : string) : M State (list Article) :=
  articles ← data_get "articles" [];
  mret (filter (λ article, lower (category article) = lower cat) articles).

(** [add_article]. The list that [articles] names is the one held in
    [self.data] when the key is there, so [append] already changes the
    store; the assignment that follows covers the case of a missing key.
    Nothing between the two can raise, and both come before the write. *)
Definition add_article (new_title new_content new_category : string)
  : M State Z :=
  articles ← data_get "articles" [];
  let new_id := py_max (id <$> articles) 0 + 1 in
  let new_article :=
    mkArticle new_id new_title (strip new_content) new_category in
  data_set "articles" (articles ++ [new_article]) ;;
  save_self ;;
  mret new_id.


(** ** Vocabulary for the statements *)

(** The articles a store holds in memory. *)
Definition articles_of (st : State) : list Article :=
  default [] (data (self st) !! "articles").

Definition ids_of (st : State) : list Z := id <$> articles_of st.

(** The id the next [add_article] hands out. *)
Definition next_id (st : State) : Z := py_max (ids_of st) 0 + 1.

(** The article the next [add_article] appends. *)
Definition new_article (st : State) (t c cat : string) : Article :=
  mkArticle (next_id st) t (strip c) cat.

(** The state a call leaves behind, whether it returned or raised. *)
Definition after {A} (m : M State A) (st : State) : State := (m st).2.

(** A sequence of [add_article] calls, each on the state the previous
    one left, its caller going on whether the call returned or raised. *)
Definition add_all (reqs : list (string * string * string)) (st : State)
  : State :=
  fold_left (λ s '(t, c, cat), after (add_article t c cat) s) reqs st.

(** The write to the store's own path goes through. *)
Definition writable (st : State) : Prop :=
  faults (disk st) !! db_path (self st) = None.

(** ** Concrete stores used in the examples *)

(** A disk with no file and no write fault. *)
Definition empty_disk : FileSystem := mkFS ∅ ∅.

(** The store of a first run over ["sample_texts.json"]. *)
Definition seed_state : State :=
  mkState (mkDB "sample_texts.json" default_data)
          (mkFS {[ "sample_texts.json" := JsonDoc default_data ]} ∅).

(** The same store on a disk that refuses to open the file for writing. *)
Definition read_only_state : State :=
  mkState (mkDB "sample_texts.json" default_data)
          (mkFS {[ "sample_texts.json" := JsonDoc default_data ]}
                {[ "sample_texts.json" := OpenFails ]}).

(** A store loaded from the document [{}]. *)
Definition keyless_state : State :=
  mkState (mkDB "sample_texts.json" ∅)
          (mkFS {[ "sample_texts.json" := JsonDoc ∅ ]} ∅).

(** ** Looking at the two ends of a string *)

Definition first_char (s : string) : option ascii :=
  match s with
  | EmptyString => None
  | String c _ => Some c
  end.

Fixpoint last_char (s : string) : option ascii :=
  match s with
  | EmptyString => None
  | String c EmptyString => Some c
  | String _ r => last_char r
  end.

(** [len(s)], a Python integer. *)
Definition len (s : string) : Z := Z.of_nat (String.length s).

(** Every character of the string is white space ([""] included). *)
Fixpoint all_space (s : string) : bool :=
  match s with
  | EmptyString => true
  | String c r => isspace c && all_space r
  end.

(** ** The summarizer (src/0104.py, lines 38-146) *)

Inductive log_level := INFO | ERROR.

(** What [summarize] returns: the dict with its five keys. *)
Record SummaryResult := mkResult {
  original_text : string;
  summary : string;
  model_used : string;
  original_length : Z;
  summary_length : Z
}.

Section TextSummarizer.
(** The floating-point numbers of the configuration are only handed on
    to the pipeline; their type is left open. *)
Context {float : Type}.

Record SummarizationConfig := mkConfig {
  model_name : string;
  max_length : Z;
  min_length : Z;
  do_sample : bool;
  temperature : float;
  top_p : float;
  repetition_penalty : float;
  length_penalty : float;
  early_stopping : bool
}.

(** The transformers pipeline is not code of this repository: it is a
    parameter. A call gets the text and the configuration's generation
    settings, may change the pipeline's own state [pipe] (random
    sampling, caches), and ends with an exception of some type [perr] or
    with [summary_result[0]['summary_text']]. *)
Context {pipe perr : Type}.
Variable pipeline : string → SummarizationConfig → pipe → (perr + string) * pipe.
(** [str(e)] for what the pipeline raises. *)
Variable str_perr : perr → string.

(** The exceptions [summarize] raises: its own [ValueError], or
    whatever the pipeline raised. *)
Inductive summarize_error :=
  | ValueError (msg : string)
  | PipelineError (e : perr).

Definition str_error (e : summarize_error) : string :=
  match e with
  | ValueError msg => msg
  | PipelineError e => str_perr e
  end.

(** The pipeline's state and the records the module's logger got. *)
Record Runtime := mkRuntime {
  pipe_state : pipe;
  log : list (log_level * string)
}.

Definition logger_error (msg : string) (rt : Runtime) : Runtime :=
  mkRuntime (pipe_state rt) (log rt ++ [(ERROR, msg)]).

(** The [try] block of [summarize]. *)
Definition summarize_body (config : SummarizationConfig) (text : string)
    (rt : Runtime) : (summarize_error + SummaryResult) * Runtime :=
  if bool_decide (text = EmptyString) || (len (strip text) <? 50)
  then (inl (ValueError "Text must be at least 50 characters long"), rt)
  else
    let text := strip text in
    match pipeline text config (pipe_state rt) with
    | (inr summary_text, p) =>
        (inr (mkResult text summary_text (model_name config)
                       (len text) (len summary_text)),
         mkRuntime p (log rt))
    | (inl e, p) => (inl (PipelineError e), mkRuntime p (log rt))
    end.

(** [summarize]: the body, and the handler that logs and re-raises. *)
Definition summarize (config : SummarizationConfig) (text : string)
    (rt : Runtime) : (summarize_error + SummaryResult) * Runtime :=
  match summarize_body config text rt with
  | (inr result, rt') => (inr result, rt')
  | (inl e, rt') =>
      (inl e,
       logger_error ("Error during summarization: " +:+ str_error e) rt')
  end.

(** The record [batch_summarize] puts in place of a failed summary. *)
Definition error_result (config : SummarizationConfig) (text : string)
    (e : summarize_error) : SummaryResult :=
  mkResult text ("Error: " +:+ str_error e) (model_name config) (len text) 0.

(** The [for] loop of [batch_summarize], [results] being the list it
    appends to. *)
Fixpoint batch_loop (config : SummarizationConfig) (texts : list string)
    (results : list SummaryResult) (rt : Runtime)
  : list SummaryResult * Runtime :=
  match texts with
  | [] => (results, rt)
  | text :: rest =>
      match summarize config text rt with
      | (inr result, rt') => batch_loop config rest (results ++ [result]) rt'
      | (inl e, rt') =>
          batch_loop config rest
            (results ++ [error_result config text e])
            (logger_error ("Error summarizing text: " +:+ str_error e) rt')
      end
  end.

Definition batch_summarize (config : SummarizationConfig)
    (texts : list string) (rt : Runtime) : list SummaryResult * Runtime :=
  batch_loop config texts [] rt.
End TextSummarizer.

Arguments SummarizationConfig : clear implicits.
Arguments summarize_error : clear implicits.
Arguments Runtime : clear implicits.

(** ** src/config.py *)

Module config.

Record ModelConfig := mkModelConfig {
  name : string;
  model_id : string;
  description : string;
  max_length : Z;
  min_length : Z;
  recommended_for : list string
}.

Definition bart_large_cnn : ModelConfig :=
  mkModelConfig "BART Large CNN" "facebook/bart-large-cnn"
    "Best for news articles and general text summarization"
    200 30 ["news"; "articles"; "general"].

Definition bart_base_cnn : ModelConfig :=
  mkModelConfig "BART Base CNN" "facebook/bart-base-cnn"
    "Faster alternative with good quality"
    150 25 ["news"; "articles"; "general"].

Definition t5_small : ModelConfig :=
  mkModelConfig "T5 Small" "t5-small"
    "Google's Text-to-Text Transfer Transformer (small)"
    100 20 ["general"; "short_text"].

Definition t5_base : ModelConfig :=
  mkModelConfig "T5 Base" "t5-base"
    "Google's Text-to-Text Transfer Transformer (base)"
    150 30 ["general"; "long_text"].

Definition pegasus_cnn : ModelConfig :=
  mkModelConfig "Pegasus CNN" "google/pegasus-cnn_dailymail"
    "Specialized for news summarization"
    200 30 ["news"; "articles"].

Definition AVAILABLE_MODELS : gmap string ModelConfig :=
  <["bart-large-cnn" := bart_large_cnn]>
  (<["bart-base-cnn" := bart_base_cnn]>
  (<["t5-small" := t5_small]>
  (<["t5-base" := t5_base]>
  (<["pegasus-cnn" := pegasus_cnn]> ∅)))).

(** [AVAILABLE_MODELS.get(model_key, AVAILABLE_MODELS["bart-large-cnn"])]:
    the default is looked up first, and [None] stands for its
    [KeyError]. *)
Definition get_model_config (model_key : string) : option ModelConfig :=
  fallback ← AVAILABLE_MODELS !! "bart-large-cnn";
  Some (default fallback (AVAILABLE_MODELS !! model_key)).

(** [all(key in config for key in required_keys)]; the values play no
    part. *)
Definition validate_config {V} (config : gmap string V) : bool :=
  forallb (λ key, bool_decide (is_Some (config !! key)))
          ["model"; "max_length"; "min_length"].

(** The values [get_environment_config] stores. *)
Inductive value :=
  | VStr (s : string)
  | VBool (b : bool)
  | VInt (n : Z).

Section environment.
(** [int(s)] is Python's own: [None] stands for its [ValueError]. *)
Variable int : string → option Z.

(** [os.getenv(name)] used as a condition: set, and not empty. *)
Definition getenv_truthy (environ : gmap string string) (name : string)
  : option string :=
  match environ !! name with
  | Some EmptyString => None
  | o => o
  end.

Definition get_environment_config (environ : gmap string string)
  : gmap string value :=
  let env_config : gmap string value := ∅ in
  let env_config :=
    match getenv_truthy environ "SUMMARIZATION_MODEL" with
    | Some v => <["model" := VStr v]> env_config
    | None => env_config
    end in
  let env_config :=
    match getenv_truthy environ "ENABLE_GPU" with
    | Some v =>
        <["enable_gpu" := VBool (bool_decide (lower v = "true"))]> env_config
    | None => env_config
    end in
  let env_config :=
    match getenv_truthy environ "MAX_TEXT_LENGTH" with
    | Some v =>
        match int v with
        | Some n => <["max_text_length" := VInt n]> env_config
        | None => env_config
        end
    | None => env_config
    end in
  env_config.
End environment.

End config.

(** ** src/app.py: [load_sample_texts] *)

Module app.

(** A call of [st.error]: the text before the exception, and the
    exception whose [str] follows it. *)
Inductive ui_event := st_error (text : string) (e : exn).

Record AppState := mkApp {
  app_disk : FileSystem;
  shown : list ui_event
}.

(** [try: body except Exception as e: handler(e)]. *)
Definition try_except {S A} (body : M S A) (handler : exn → M S A) : M S A :=
  λ s,
    match body s with
    | (Ret a, s') => (Ret a, s')
    | (Raise e, s') => handler e s'
    end.

Definition load_sample_texts : M AppState (list Article) :=
  try_except
    (λ s,
       match files (app_disk s) !! "sample_texts.json" with
       | Some (JsonDoc d) => (Ret (default [] (d !! "articles")), s)
       | Some Malformed => (Raise JSONDecodeError, s)
       | None => (Ret [], s)
       end)
    (λ e s,
       (Ret [],
        mkApp (app_disk s)
              (shown s ++ [st_error "Error loading sample texts: " e]))).

End app.

(** Consecutive integers [start, start + 1, ...], [n] of them. *)
Fixpoint count_from (start : Z) (n : nat) : list Z :=
  match n with
  | O => []
  | S n' => start :: count_from (start + 1) n'
  end.

(** ** More concrete inputs for the examples *)

(** A store whose file had two articles under the id 9. *)
Definition duplicate_ids_state : State :=
  mkState
    (mkDB "db"
       {[ "articles" :=
            [mkArticle 7 "a" "x" "A"; mkArticle 9 "b" "y" "B";
             mkArticle 9 "c" "z" "C"] ]})
    empty_disk.

(** A store holding the seed articles while its file is malformed. *)
Definition stale_state : State :=
  mkState (mkDB "sample_texts.json" default_data)
          (mkFS {[ "sample_texts.json" := Malformed ]} ∅).

(** A stand-in for the pipeline in the examples: it keeps the first
    [max_length] characters of the text, counts its calls in its state,
    and raises from its third call on. *)
Definition toy_pipeline (text : string) (config : SummarizationConfig ())
    (calls : nat) : (string + string) * nat :=
  (if (calls <? 2)%nat
   then inr (String.substring 0 (Z.to_nat (max_length config)) text)
   else inl "out of memory",
   S calls).

Definition toy_config : SummarizationConfig () :=
  mkConfig "toy" 20 5 false () () () () true.

(** Sixty-one characters between white space. *)
Definition long_text : string :=
  NL +:+ "  The quick brown fox jumps over the lazy dog, again and again. " +:+ NL.

(** [str] of what [toy_pipeline] raises: the message itself. *)
Definition toy_str (e : string) : string := e.

(** A runtime whose pipeline has served [calls] calls, with an empty log. *)
Definition toy_runtime (calls : nat) : Runtime nat := mkRuntime calls [].

(** A stand-in for [int] in the examples: it reads plain decimal digits
    and rejects everything else. *)
Fixpoint toy_digits (s : string) (acc : Z) : option Z :=
  match s with
  | EmptyString => Some acc
  | String c r =>
      let n := Z.of_N (N_of_ascii c) in
      if (48 <=? n) && (n <=? 57) then toy_digits r (10 * acc + (n - 48))
      else None
  end.

Definition toy_int (s : string) : option Z :=
  match s with
  | EmptyString => None
  | _ => toy_digits s 0
  end.

(** An environment with the three variables set, and one more. *)
Definition toy_environ : gmap string string :=
  <["SUMMARIZATION_MODEL" := "t5-small"]>
  (<["ENABLE_GPU" := "TRUE"]>
  (<["MAX_TEXT_LENGTH" := "5000 chars"]>
  (<["HOME" := "/root"]> ∅))).

(** * Properties *)

Ltac unfold_ops :=
  unfold after, add_article, get_article_by_id, get_articles_by_category,
    get_all_articles, __init__, _load_data, save_self, data_set, data_get,
    mbind, M_bind, mret, M_ret; simpl.

(** ** Strings *)

Example strip_example :
  strip (NL +:+ "   two words " +:+ NL +:+ indent) = "two words".
Proof. reflexivity. Qed.

Example lower_example : lower "Technology" = "technology".
Proof. reflexivity. Qed.

Lemma lower_char_idemp (c : ascii) : lower_char (lower_char c) = lower_char c.
Proof. by destruct c as [[] [] [] [] [] [] [] []]. Qed.

(** A character that [lower_char] moves is found again 32 places down. *)
Lemma lower_char_moved (c : ascii) :
  lower_char c ≠ c → ascii_of_N (N_of_ascii (lower_char c) - 32) = c.
Proof. by destruct c as [[] [] [] [] [] [] [] []]. Qed.

Lemma lower_char_eq_iff (a b : ascii) :
  lower_char a = lower_char b ↔ same_letter a b.
Proof.
  unfold same_letter. split.
  - intros Hab.
    destruct (decide (lower_char a = a)) as [Ha|Ha];
      destruct (decide (lower_char b = b)) as [Hb|Hb].
    + left. congruence.
    + right; right. congruence.
    + right; left. congruence.
    + left. rewrite <- (lower_char_moved a Ha), <- (lower_char_moved b Hb).
      by rewrite Hab.
  - intros [->|[<-| ->]]; [done| |]; by rewrite lower_char_idemp.
Qed.

Lemma lower_eq_iff (s t : string) :
  lower s = lower t ↔ differ_in_case_only s t.
Proof.
  revert t. induction s as [|a s IH]; intros [|b t]; simpl;
    [done|split; [intros [=]|intros []]..|].
  rewrite <- IH, <- lower_char_eq_iff.
  split; [intros [= Hc Hs]|intros [Hc Hs]]; [done|by f_equal].
Qed.

(** ** [max] *)

Lemma fold_left_max_ge (xs : list Z) (x : Z) :
  x ≤ fold_left Z.max xs x ∧ ∀ y, y ∈ xs → y ≤ fold_left Z.max xs x.
Proof.
  revert x. induction xs as [|z xs IH]; intros x; simpl.
  - split; [lia|]. intros y Hy. by apply elem_of_nil in Hy.
  - destruct (IH (Z.max x z)) as [H1 H2]. split; [lia|].
    intros y [->|Hy]%elem_of_cons; [lia|auto].
Qed.

Lemma fold_left_max_in (xs : list Z) (x : Z) :
  fold_left Z.max xs x = x ∨ fold_left Z.max xs x ∈ xs.
Proof.
  revert x. induction xs as [|z xs IH]; intros x; simpl; [by left|].
  destruct (IH (Z.max x z)) as [H|H].
  - rewrite H. destruct (Z.max_spec x z) as [[_ ->]|[_ ->]]; [right; left|by left].
  - right. by right.
Qed.

Lemma py_max_ge (xs : list Z) (d y : Z) : y ∈ xs → y ≤ py_max xs d.
Proof.
  destruct xs as [|x xs]; simpl; [by intros ?%elem_of_nil|].
  destruct (fold_left_max_ge xs x) as [H1 H2].
  intros [->|Hy]%elem_of_cons; auto.
Qed.

Lemma py_max_in (xs : list Z) (d : Z) : xs ≠ [] → py_max xs d ∈ xs.
Proof.
  destruct xs as [|x xs]; simpl; [done|]. intros _.
  destruct (fold_left_max_in xs x) as [->|H]; [left|by right].
Qed.

(** ** What one [add_article] does *)

Lemma add_article_self (st : State) (t c cat : string) :
  self (after (add_article t c cat) st)
  = mkDB (db_path (self st))
         (<["articles" := articles_of st ++ [new_article st t c cat]]>
            (data (self st))).
Proof.
  unfold_ops. unfold _save_data.
  by destruct (faults (disk st) !! db_path (self st)) as [[]|].
Qed.

Lemma add_article_articles (st : State) (t c cat : string) :
  articles_of (after (add_article t c cat) st)
  = articles_of st ++ [new_article st t c cat].
Proof.
  unfold articles_of at 1. rewrite add_article_self. simpl.
  by rewrite lookup_insert_eq.
Qed.

Lemma add_article_db_path (st : State) (t c cat : string) :
  db_path (self (after (add_article t c cat) st)) = db_path (self st).
Proof. by rewrite add_article_self. Qed.

(** The outcome follows the write: the new id when it goes through, the
    write's exception when it does not. *)
Lemma add_article_outcome (st : State) (t c cat : string) :
  (add_article t c cat st).1
  = match faults (disk st) !! db_path (self st) with
    | None => Ret (next_id st)
    | Some _ => Raise OSError
    end.
Proof.
  unfold_ops. unfold _save_data.
  by destruct (faults (disk st) !! db_path (self st)) as [[]|].
Qed.

(** After a call that returned, the file holds what the store holds. *)
Lemma add_article_disk (st : State) (t c cat : string) :
  writable st →
  disk (after (add_article t c cat) st)
  = mkFS (<[db_path (self st) :=
              JsonDoc (data (self (after (add_article t c cat) st)))]>
            (files (disk st)))
         (faults (disk st)).
Proof.
  unfold writable. intros Hw. rewrite add_article_self.
  unfold_ops. unfold _save_data. by rewrite Hw.
Qed.

Lemma add_article_returned (st st' : State) (t c cat : string) (i : Z) :
  add_article t c cat st = (Ret i, st') →
  i = next_id st ∧ writable st ∧ st' = after (add_article t c cat) st.
Proof.
  intros Hrun. pose proof (add_article_outcome st t c cat) as Hout.
  unfold after, writable. rewrite Hrun in *. simpl in Hout.
  destruct (faults (disk st) !! db_path (self st)); [done|].
  by injection Hout as ->.
Qed.

(** Every id already in the store lies below the next one. *)
Lemma ids_below_next (st : State) (a : Article) :
  a ∈ articles_of st → id a < next_id st.
Proof.
  intros Ha. unfold next_id.
  assert (id a ≤ py_max (ids_of st) 0); [|lia].
  apply py_max_ge. unfold ids_of. by apply list_elem_of_fmap_2.
Qed.

Lemma scan_by_id_app (l k : list Article) (i : Z) :
  scan_by_id (l ++ k) i
  = match scan_by_id l i with Some a => Some a | None => scan_by_id k i end.
Proof. induction l as [|a l IH]; simpl; [done|]. by case_decide. Qed.

Lemma scan_by_id_None (l : list Article) (i : Z) :
  scan_by_id l i = None ↔ ∀ a, a ∈ l → id a ≠ i.
Proof.
  induction l as [|b l IH]; simpl.
  - split; [|done]. by intros _ a ?%elem_of_nil.
  - case_decide as Hb.
    + split; [done|]. intros H. destruct (H b); [left|done].
    + rewrite IH. split.
      * intros H a [->|Ha]%elem_of_cons; auto.
      * intros H a Ha. apply H. by right.
Qed.

Lemma scan_by_id_Some (l : list Article) (i : Z) (a : Article) :
  scan_by_id l i = Some a → a ∈ l ∧ id a = i.
Proof.
  induction l as [|b l IH]; simpl; [done|]. case_decide as Hb.
  - intros [= ->]. split; [left|done].
  - intros [H1 H2]%IH. split; [by right|done].
Qed.

(** The id just handed out leads to the article just appended. *)
Lemma get_new_article (st : State) (t c cat : string) :
  get_article_by_id (next_id st) (after (add_article t c cat) st)
  = (Ret (Some (new_article st t c cat)), after (add_article t c cat) st).
Proof.
  unfold get_article_by_id, mbind, M_bind, mret, M_ret, data_get.
  fold (articles_of (after (add_article t c cat) st)).
  rewrite add_article_articles, scan_by_id_app.
  replace (scan_by_id (articles_of st) (next_id st)) with (@None Article).
  - simpl. by rewrite decide_True.
  - symmetry. apply scan_by_id_None. intros a Ha%ids_below_next. lia.
Qed.

Lemma add_all_snoc (reqs : list (string * string * string))
    (t c cat : string) (st : State) :
  add_all (reqs ++ [(t, c, cat)]) st
  = after (add_article t c cat) (add_all reqs st).
Proof. unfold add_all. by rewrite fold_left_app. Qed.

Lemma add_article_NoDup (st : State) (t c cat : string) :
  NoDup (ids_of st) → NoDup (ids_of (after (add_article t c cat) st)).
Proof.
  intros Hnd. unfold ids_of at 1. rewrite add_article_articles, fmap_app.
  apply NoDup_app. split; [done|]. split; [|apply NoDup_singleton].
  intros x [a [-> Ha]]%list_elem_of_fmap_1 Hx%list_elem_of_singleton.
  apply ids_below_next in Ha. simpl in Hx. lia.
Qed.

(** ** Examples of [add_article] *)

Example seed_state_add :
  add_article "Title" (NL +:+ "  body text  ") "News" seed_state
  = (Ret 4,
     mkState
       (mkDB "sample_texts.json"
          {[ "articles" :=
               default_articles ++ [mkArticle 4 "Title" "body text" "News"] ]})
       (mkFS
          {[ "sample_texts.json" :=
               JsonDoc
                 {[ "articles" :=
                      default_articles
                        ++ [mkArticle 4 "Title" "body text" "News"] ]} ]}
          ∅)).
Proof. reflexivity. Qed.

Example negative_ids_add :
  (add_article "t" "c" "x"
     (mkState (mkDB "db" {[ "articles" := [mkArticle (-5) "a" "b" "c"] ]})
              empty_disk)).1
  = Ret (-4).
Proof. reflexivity. Qed.

(** ** C1: id assignment *)

(** C1. From any store [st] and after any sequence [reqs] of
    [add_article] calls, one more call appends an article whose id is the
    value it returns: 1 when the store holds no article, else one more
    than the largest id held just before the call (that id minus one is
    held, and no held id reaches it). If the ids of [st] are pairwise
    distinct, they are so before and after that call. *)
Theorem add_article_ids (st : State)
    (reqs : list (string * string * string)) (t c cat : string) :
  articles_of (after (add_article t c cat) (add_all reqs st))
  = articles_of (add_all reqs st)
      ++ [mkArticle (next_id (add_all reqs st)) t (strip c) cat]
  ∧ (∀ i, (add_article t c cat (add_all reqs st)).1 = Ret i →
          i = next_id (add_all reqs st))
  ∧ (ids_of (add_all reqs st) = [] → next_id (add_all reqs st) = 1)
  ∧ (∀ x, x ∈ ids_of (add_all reqs st) → x < next_id (add_all reqs st))
  ∧ (ids_of (add_all reqs st) ≠ [] →
     next_id (add_all reqs st) - 1 ∈ ids_of (add_all reqs st))
  ∧ (NoDup (ids_of st) →
     NoDup (ids_of (add_all reqs st))
     ∧ NoDup (ids_of (after (add_article t c cat) (add_all reqs st)))).
Proof.
  set (before := add_all reqs st).
  split; [apply add_article_articles|].
  split.
  { intros i Hi. rewrite add_article_outcome in Hi.
    destruct (faults (disk before) !! db_path (self before)); [done|].
    by injection Hi as <-. }
  split; [by unfold next_id; intros ->|].
  split.
  { intros x Hx. unfold next_id.
    pose proof (py_max_ge (ids_of before) 0 x Hx). lia. }
  split.
  { intros Hne. unfold next_id.
    replace (py_max (ids_of before) 0 + 1 - 1) with (py_max (ids_of before) 0)
      by lia.
    by apply py_max_in. }
  intros Hnd.
  assert (NoDup (ids_of before)) as Hb.
  { subst before. induction reqs as [|[[t1 c1] cat1] reqs IH] using rev_ind;
      [done|]. rewrite add_all_snoc. by apply add_article_NoDup. }
  split; [done|]. by apply add_article_NoDup.
Qed.

Lemma add_article_ids_witness :
  NoDup (ids_of seed_state)
  ∧ NoDup (ids_of (add_all [("a", "b", "c")] seed_state))
  ∧ NoDup (ids_of (after (add_article "d" " e " "f")
                         (add_all [("a", "b", "c")] seed_state))).
Proof.
  assert (NoDup (ids_of seed_state)) as Hnd.
  { apply (bool_decide_unpack _). vm_compute. exact I. }
  split; [exact Hnd|].
  apply (add_article_ids seed_state [("a", "b", "c")] "d" " e " "f").
  exact Hnd.
Defined.

(** ** C2: add, then look the new id up *)

(** C2. When [add_article t c cat] returns [new_id], looking [new_id] up
    in the store it leaves gives the article with that id, title [t],
    content [strip c] and category [cat], and changes nothing. *)
Theorem add_then_get_by_id (st st' : State) (t c cat : string) (new_id : Z) :
  add_article t c cat st = (Ret new_id, st') →
  get_article_by_id new_id st'
  = (Ret (Some (mkArticle new_id t (strip c) cat)), st').
Proof.
  intros (-> & _ & ->)%add_article_returned. apply get_new_article.
Qed.

Lemma add_then_get_by_id_witness :
  add_article "Title" "  body " "News" seed_state
  = (Ret 4, after (add_article "Title" "  body " "News") seed_state)
  ∧ get_article_by_id 4 (after (add_article "Title" "  body " "News") seed_state)
    = (Ret (Some (mkArticle 4 "Title" (strip "  body ") "News")),
       after (add_article "Title" "  body " "News") seed_state).
Proof.
  split; [reflexivity|].
  apply (add_then_get_by_id seed_state). reflexivity.
Defined.

(** ** C3: seed on first run *)

(** C3. Constructing the store over a path with no file, on a disk that
    takes the write, returns a store that holds exactly the three seed
    articles, with ids 1, 2, 3, and leaves at that path a file with the
    seed collection; nothing else on the disk changes. *)
Theorem seed_on_first_run (path : string) (fs : FileSystem) :
  files fs !! path = None →
  faults fs !! path = None →
  ∃ db fs',
    __init__ path fs = (Ret db, fs')
    ∧ get_all_articles (mkState db fs')
      = (Ret default_articles, mkState db fs')
    ∧ List.length default_articles = 3%nat
    ∧ id <$> default_articles = [1; 2; 3]
    ∧ files fs' !! path = Some (JsonDoc {[ "articles" := default_articles ]})
    ∧ (∀ other, other ≠ path → files fs' !! other = files fs !! other)
    ∧ data db = {[ "articles" := default_articles ]}
    ∧ db_path db = path.
Proof.
  intros Hnone Hok.
  exists (mkDB path default_data),
    (mkFS (<[path := JsonDoc default_data]> (files fs)) (faults fs)).
  split.
  { unfold_ops. rewrite Hnone. unfold _save_data. by rewrite Hok. }
  split; [done|]. split; [done|]. split; [done|]. simpl.
  split; [by rewrite lookup_insert_eq|].
  split; [|done]. intros other Hne. by rewrite lookup_insert_ne.
Qed.

Lemma seed_on_first_run_witness :
  files empty_disk !! "sample_texts.json" = None
  ∧ faults empty_disk !! "sample_texts.json" = None
  ∧ ∃ db fs',
      __init__ "sample_texts.json" empty_disk = (Ret db, fs')
      ∧ get_all_articles (mkState db fs')
        = (Ret default_articles, mkState db fs')
      ∧ List.length default_articles = 3%nat
      ∧ id <$> default_articles = [1; 2; 3]
      ∧ files fs' !! "sample_texts.json"
        = Some (JsonDoc {[ "articles" := default_articles ]})
      ∧ (∀ other, other ≠ "sample_texts.json" →
                  files fs' !! other = files empty_disk !! other)
      ∧ data db = {[ "articles" := default_articles ]}
      ∧ db_path db = "sample_texts.json".
Proof.
  split; [reflexivity|]. split; [reflexivity|].
  apply (seed_on_first_run "sample_texts.json" empty_disk); reflexivity.
Defined.

Example first_run_state :
  __init__ "sample_texts.json" empty_disk
  = (Ret (self seed_state), disk seed_state).
Proof. reflexivity. Qed.

(** ** C4: persistence *)

(** C4. When [add_article t c cat] returns [new_id], a store constructed
    afresh over the same path, from the disk the call left, loads without
    touching the disk, holds the new article among its articles, and
    finds it under [new_id]. *)
Theorem add_then_reload (st st' : State) (t c cat : string) (new_id : Z) :
  add_article t c cat st = (Ret new_id, st') →
  ∃ db l,
    __init__ (db_path (self st)) (disk st') = (Ret db, disk st')
    ∧ get_all_articles (mkState db (disk st'))
      = (Ret l, mkState db (disk st'))
    ∧ mkArticle new_id t (strip c) cat ∈ l
    ∧ get_article_by_id new_id (mkState db (disk st'))
      = (Ret (Some (mkArticle new_id t (strip c) cat)),
         mkState db (disk st')).
Proof.
  intros Hrun. pose proof Hrun as (-> & Hw & ->)%add_article_returned.
  set (st' := after (add_article t c cat) st) in *.
  assert (__init__ (db_path (self st)) (disk st')
          = (Ret (self st'), disk st')) as Hinit.
  { pose proof (add_article_db_path st t c cat) as Hp. fold st' in Hp.
    pose proof (add_article_disk st t c cat Hw) as Hd. fold st' in Hd.
    rewrite Hd, <- Hp.
    unfold __init__, _load_data, mbind, M_bind, mret, M_ret. simpl.
    rewrite lookup_insert_eq. by destruct (self st'). }
  assert (mkState (self st') (disk st') = st') as Hst' by by destruct st'.
  exists (self st'), (articles_of st'). rewrite Hst'.
  split; [done|]. split; [done|]. split.
  - subst st'. rewrite add_article_articles.
    apply elem_of_app. right. by left.
  - apply get_new_article.
Qed.

Lemma add_then_reload_witness :
  add_article "Title" "  body " "News" seed_state
  = (Ret 4, after (add_article "Title" "  body " "News") seed_state)
  ∧ ∃ db l,
      __init__ (db_path (self seed_state))
        (disk (after (add_article "Title" "  body " "News") seed_state))
      = (Ret db, disk (after (add_article "Title" "  body " "News") seed_state))
      ∧ get_all_articles
          (mkState db
             (disk (after (add_article "Title" "  body " "News") seed_state)))
        = (Ret l,
           mkState db
             (disk (after (add_article "Title" "  body " "News") seed_state)))
      ∧ mkArticle 4 "Title" (strip "  body ") "News" ∈ l
      ∧ get_article_by_id 4
          (mkState db
             (disk (after (add_article "Title" "  body " "News") seed_state)))
        = (Ret (Some (mkArticle 4 "Title" (strip "  body ") "News")),
           mkState db
             (disk (after (add_article "Title" "  body " "News") seed_state))).
Proof.
  split; [reflexivity|].
  apply (add_then_reload seed_state). reflexivity.
Defined.

(** ** C5: a failed write *)

(** C5. When the write to the store's path fails, [add_article] raises
    the write's [OSError], and the store it leaves still holds the new
    article, appended under the id it was given and found under that id. *)
Theorem add_article_write_failure (st : State) (t c cat : string) :
  is_Some (faults (disk st) !! db_path (self st)) →
  ∃ st',
    add_article t c cat st = (Raise OSError, st')
    ∧ articles_of st'
      = articles_of st ++ [mkArticle (next_id st) t (strip c) cat]
    ∧ get_article_by_id (next_id st) st'
      = (Ret (Some (mkArticle (next_id st) t (strip c) cat)), st').
Proof.
  intros [wf Hwf]. exists (after (add_article t c cat) st).
  split.
  { pose proof (add_article_outcome st t c cat) as Hout.
    rewrite Hwf in Hout. unfold after.
    destruct (add_article t c cat st) as [r s]. simpl in *. by subst r. }
  split; [apply add_article_articles|apply get_new_article].
Qed.

Lemma add_article_write_failure_witness :
  is_Some (faults (disk read_only_state) !! db_path (self read_only_state))
  ∧ ∃ st',
      add_article "Title" "  body " "News" read_only_state
      = (Raise OSError, st')
      ∧ articles_of st'
        = articles_of read_only_state
            ++ [mkArticle (next_id read_only_state) "Title"
                          (strip "  body ") "News"]
      ∧ get_article_by_id (next_id read_only_state) st'
        = (Ret (Some (mkArticle (next_id read_only_state) "Title"
                                (strip "  body ") "News")), st').
Proof.
  assert (is_Some (faults (disk read_only_state)
                     !! db_path (self read_only_state))) as Hf.
  { exists OpenFails. reflexivity. }
  split; [exact Hf|].
  exact (add_article_write_failure read_only_state "Title" "  body " "News" Hf).
Defined.

Example read_only_add :
  add_article "Title" "  body " "News" read_only_state
  = (Raise OSError,
     mkState
       (mkDB "sample_texts.json"
          {[ "articles" :=
               default_articles ++ [mkArticle 4 "Title" "body" "News"] ]})
       (disk read_only_state)).
Proof. reflexivity. Qed.

(** ** C6: category lookup ignores letter case *)

Lemma get_articles_by_category_run (st : State) (cat : string) :
  get_articles_by_category cat st
  = (Ret (filter (λ a, lower (category a) = lower cat) (articles_of st)), st).
Proof. reflexivity. Qed.

(** C6. [get_articles_by_category] always returns, and changes nothing.
    What it returns is the store's articles filtered by "the category and
    the query differ in letter case only": an article is in the result
    exactly when it is in the store and its category is the query up to
    case. A query that differs from [cat] in case only gets the same
    result, and with no matching article the result is the empty list. *)
Theorem get_articles_by_category_ignores_case (st : State) (cat : string) :
  ∃ l,
    get_articles_by_category cat st = (Ret l, st)
    ∧ l = filter (λ a, differ_in_case_only (category a) cat) (articles_of st)
    ∧ (∀ a, a ∈ l ↔
            a ∈ articles_of st ∧ differ_in_case_only (category a) cat)
    ∧ (∀ cat', differ_in_case_only cat cat' →
               get_articles_by_category cat' st = (Ret l, st))
    ∧ ((∀ a, a ∈ articles_of st → ¬ differ_in_case_only (category a) cat) →
       l = []).
Proof.
  exists (filter (λ a, lower (category a) = lower cat) (articles_of st)).
  split; [apply get_articles_by_category_run|].
  split; [apply list_filter_iff; intros a; apply lower_eq_iff|].
  split.
  { intros a. rewrite list_elem_of_filter, lower_eq_iff. tauto. }
  split.
  { intros cat' Hcase%lower_eq_iff.
    rewrite get_articles_by_category_run. by rewrite Hcase. }
  intros Hnone.
  destruct (filter _ (articles_of st)) as [|a l] eqn:Hl; [done|].
  assert (a ∈ filter (λ a, lower (category a) = lower cat) (articles_of st))
    as [Hcat%lower_eq_iff Ha]%list_elem_of_filter by (rewrite Hl; left).
  destruct (Hnone a Ha Hcat).
Qed.

Example technology_either_case :
  get_articles_by_category "technology" seed_state
  = get_articles_by_category "Technology" seed_state
  ∧ (get_articles_by_category "TECHNOLOGY" seed_state).1
    = Ret [mkArticle 1 "Artificial Intelligence Revolution" seed_content_1
                     "Technology"]
  ∧ get_articles_by_category "Sports" seed_state = (Ret [], seed_state).
Proof. repeat split; reflexivity. Qed.

(** ** C7: lookup by id *)

(** C7. [get_article_by_id] always returns, and changes nothing: [None]
    when no article of the store has the id, and otherwise an article of
    the store with that id. *)
Theorem get_article_by_id_contract (st : State) (i : Z) :
  ((∀ a, a ∈ articles_of st → id a ≠ i) →
   get_article_by_id i st = (Ret None, st))
  ∧ ((∃ a, a ∈ articles_of st ∧ id a = i) →
     ∃ a, get_article_by_id i st = (Ret (Some a), st)
          ∧ a ∈ articles_of st ∧ id a = i).
Proof.
  assert (get_article_by_id i st
          = (Ret (scan_by_id (articles_of st) i), st)) as -> by reflexivity.
  split.
  - intros Hnone%scan_by_id_None. by rewrite Hnone.
  - intros (b & Hb & Hid).
    destruct (scan_by_id (articles_of st) i) as [a|] eqn:Hscan.
    + exists a. split; [done|]. by apply scan_by_id_Some.
    + destruct (proj1 (scan_by_id_None _ _) Hscan b Hb Hid).
Qed.

Lemma get_article_by_id_contract_witness :
  ((∀ a, a ∈ articles_of seed_state → id a ≠ 9999)
   ∧ get_article_by_id 9999 seed_state = (Ret None, seed_state))
  ∧ ((∃ a, a ∈ articles_of seed_state ∧ id a = 2)
     ∧ ∃ a, get_article_by_id 2 seed_state = (Ret (Some a), seed_state)
            ∧ a ∈ articles_of seed_state ∧ id a = 2).
Proof.
  assert (∀ a, a ∈ articles_of seed_state → id a ≠ 9999) as Hmiss.
  { intros a Ha. apply ids_below_next in Ha.
    change (next_id seed_state) with 4 in Ha. lia. }
  assert (∃ a, a ∈ articles_of seed_state ∧ id a = 2) as Hhit.
  { exists (mkArticle 2 "Climate Change and Renewable Energy"
                      seed_content_2 "Environment").
    split; [|reflexivity]. right. left. }
  split.
  - split; [exact Hmiss|].
    exact (proj1 (get_article_by_id_contract seed_state 9999) Hmiss).
  - split; [exact Hhit|].
    exact (proj2 (get_article_by_id_contract seed_state 2) Hhit).
Defined.

(** ** C8: the reads change nothing *)

(** The articles a sequence of [add_article] calls appends, in call order. *)
Lemma add_all_articles (reqs : list (string * string * string)) (st : State) :
  ∃ added,
    articles_of (add_all reqs st) = articles_of st ++ added
    ∧ (λ a, (title a, content a, category a)) <$> added
      = (λ '(t, c, cat), (t, strip c, cat)) <$> reqs.
Proof.
  induction reqs as [|[[t c] cat] reqs IH] using rev_ind.
  - exists []. by rewrite app_nil_r.
  - destruct IH as (added & Harts & Hreqs).
    exists (added ++ [new_article (add_all reqs st) t c cat]).
    rewrite add_all_snoc, add_article_articles, Harts, app_assoc.
    split; [done|]. by rewrite !fmap_app, Hreqs.
Qed.

(** C8. [get_all_articles] returns the articles held in memory and leaves
    the state, store and disk, as it was; so do [get_article_by_id] and
    [get_articles_by_category]. The sequence is in insertion order: after
    any sequence of [add_article] calls it is the earlier sequence
    followed by the added articles, in the order of the calls. *)
Theorem reads_change_nothing (st : State) :
  get_all_articles st = (Ret (articles_of st), st)
  ∧ (∀ i, after (get_article_by_id i) st = st)
  ∧ (∀ cat, after (get_articles_by_category cat) st = st)
  ∧ (∀ reqs, ∃ added,
       get_all_articles (add_all reqs st)
       = (Ret (articles_of st ++ added), add_all reqs st)
       ∧ (λ a, (title a, content a, category a)) <$> added
         = (λ '(t, c, cat), (t, strip c, cat)) <$> reqs).
Proof.
  split; [done|]. split; [done|]. split; [done|].
  intros reqs. destruct (add_all_articles reqs st) as (added & Harts & Hreqs).
  exists added. split; [|done].
  assert (get_all_articles (add_all reqs st)
          = (Ret (articles_of (add_all reqs st)), add_all reqs st)) as ->
    by reflexivity.
  by rewrite Harts.
Qed.

(** ** C9: a document without the ["articles"] key *)

(** C9. When the file holds a JSON object without the key ["articles"],
    the store loads it as it is, and then: [get_all_articles] returns the
    empty list, [get_article_by_id] returns [None] for every id,
    [get_articles_by_category] returns the empty list for every
    category, all three leaving the state alone; [add_article] gives the
    new article id 1 and leaves a store whose ["articles"] key holds that
    article alone, returning 1 when the write goes through. *)
Theorem missing_articles_key (path : string) (fs : FileSystem) (d : Data) :
  files fs !! path = Some (JsonDoc d) →
  d !! "articles" = None →
  __init__ path fs = (Ret (mkDB path d), fs)
  ∧ get_all_articles (mkState (mkDB path d) fs)
    = (Ret [], mkState (mkDB path d) fs)
  ∧ (∀ i, get_article_by_id i (mkState (mkDB path d) fs)
          = (Ret None, mkState (mkDB path d) fs))
  ∧ (∀ cat, get_articles_by_category cat (mkState (mkDB path d) fs)
            = (Ret [], mkState (mkDB path d) fs))
  ∧ (∀ t c cat,
       data (self (after (add_article t c cat) (mkState (mkDB path d) fs)))
       = <["articles" := [mkArticle 1 t (strip c) cat]]> d
       ∧ (faults fs !! path = None →
          (add_article t c cat (mkState (mkDB path d) fs)).1 = Ret 1)).
Proof.
  intros Hfile Hkey. split.
  { unfold __init__, _load_data, mbind, M_bind, mret, M_ret.
    by rewrite Hfile. }
  split; [by unfold_ops; rewrite Hkey|].
  split; [by intros i; unfold_ops; rewrite Hkey|].
  split; [by intros cat; unfold_ops; rewrite Hkey|].
  intros t c cat. split.
  - rewrite add_article_self. unfold new_article, next_id, ids_of, articles_of.
    simpl. by rewrite Hkey.
  - intros Hw. rewrite add_article_outcome. simpl. rewrite Hw.
    unfold next_id, ids_of, articles_of. simpl. by rewrite Hkey.
Qed.

Lemma missing_articles_key_witness :
  files (disk keyless_state) !! "sample_texts.json" = Some (JsonDoc ∅)
  ∧ (∅ : Data) !! "articles" = None
  ∧ __init__ "sample_texts.json" (disk keyless_state)
    = (Ret (self keyless_state), disk keyless_state)
  ∧ get_all_articles keyless_state = (Ret [], keyless_state)
  ∧ (add_article "Title" "  body " "News" keyless_state).1 = Ret 1
  ∧ articles_of (after (add_article "Title" "  body " "News") keyless_state)
    = [mkArticle 1 "Title" "body" "News"].
Proof.
  assert (files (disk keyless_state) !! "sample_texts.json"
          = Some (JsonDoc ∅)) as Hfile by reflexivity.
  assert ((∅ : Data) !! "articles" = None) as Hkey by reflexivity.
  destruct (missing_articles_key "sample_texts.json" (disk keyless_state) ∅
              Hfile Hkey) as (Hinit & Hall & _ & _ & Hadd).
  destruct (Hadd "Title" "  body " "News") as [Hdata Hret].
  split; [exact Hfile|]. split; [exact Hkey|]. split; [exact Hinit|].
  split; [exact Hall|]. split; [apply Hret; reflexivity|].
  unfold articles_of.
  change (mkState (mkDB "sample_texts.json" ∅) (disk keyless_state))
    with keyless_state in Hdata.
  rewrite Hdata. reflexivity.
Defined.

(** ** C10: category lookup keeps the order *)

(** C10. What [get_articles_by_category] returns is a subsequence of what
    [get_all_articles] returns: the matching articles, in the order they
    have in the full collection. *)
Theorem get_articles_by_category_sublist (st : State) (cat : string) :
  ∃ matching all,
    get_articles_by_category cat st = (Ret matching, st)
    ∧ get_all_articles st = (Ret all, st)
    ∧ matching `sublist_of` all.
Proof.
  exists (filter (λ a, lower (category a) = lower cat) (articles_of st)),
    (articles_of st).
  split; [apply get_articles_by_category_run|]. split; [done|].
  apply sublist_filter.
Qed.

(** * Further properties of the store *)

Lemma py_max_snoc (xs : list Z) :
  py_max (xs ++ [py_max xs 0 + 1]) 0 = py_max xs 0 + 1.
Proof.
  destruct xs as [|x r]; simpl; [done|].
  rewrite fold_left_app. simpl. lia.
Qed.

Lemma next_id_after_add (st : State) (t c cat : string) :
  next_id (after (add_article t c cat) st) = next_id st + 1.
Proof.
  unfold next_id at 1, ids_of. rewrite add_article_articles, fmap_app. simpl.
  fold (ids_of st). unfold next_id. by rewrite py_max_snoc.
Qed.

Lemma get_article_by_id_run (st : State) (i : Z) :
  get_article_by_id i st = (Ret (scan_by_id (articles_of st) i), st).
Proof. reflexivity. Qed.

Lemma add_all_cons (t c cat : string)
    (reqs : list (string * string * string)) (st : State) :
  add_all ((t, c, cat) :: reqs) st
  = add_all reqs (after (add_article t c cat) st).
Proof. reflexivity. Qed.

(** X1. A run of [add_article] calls hands out consecutive ids: the ids
    of the store afterwards are the earlier ids followed by
    [next_id], [next_id + 1], ..., one per call, whether or not the
    writes went through. *)
Theorem add_all_consecutive_ids (reqs : list (string * string * string))
    (st : State) :
  ids_of (add_all reqs st)
  = ids_of st ++ count_from (next_id st) (List.length reqs).
Proof.
  revert st. induction reqs as [|[[t c] cat] reqs IH]; intros st.
  - simpl. by rewrite app_nil_r.
  - rewrite add_all_cons, IH, next_id_after_add. simpl.
    unfold ids_of at 1. rewrite add_article_articles, fmap_app. simpl.
    by rewrite <- app_assoc.
Qed.

(** X2. [add_article] touches nothing but the ["articles"] entry and the
    store's own file: every other key of the document, the store's path,
    every other file and the disk's faults are as before, whatever the
    outcome of the call. *)
Theorem add_article_frame (st : State) (t c cat : string) :
  (∀ key, key ≠ "articles" →
     data (self (after (add_article t c cat) st)) !! key
     = data (self st) !! key)
  ∧ db_path (self (after (add_article t c cat) st)) = db_path (self st)
  ∧ (∀ path, path ≠ db_path (self st) →
       files (disk (after (add_article t c cat) st)) !! path
       = files (disk st) !! path)
  ∧ faults (disk (after (add_article t c cat) st)) = faults (disk st).
Proof.
  split.
  { intros key Hkey. rewrite add_article_self. simpl.
    by rewrite lookup_insert_ne. }
  split; [apply add_article_db_path|].
  unfold_ops. unfold _save_data.
  destruct (faults (disk st) !! db_path (self st)) as [[]|]; simpl;
    (split; [|done]); intros path Hpath; by rewrite ?lookup_insert_ne.
Qed.

(** X3. Adding an article does not disturb the lookup of any other id:
    for every id but the one just handed out, [get_article_by_id]
    answers after the call what it answered before. *)
Theorem add_keeps_other_lookups (st : State) (t c cat : string) (i : Z) :
  i ≠ next_id st →
  (get_article_by_id i (after (add_article t c cat) st)).1
  = (get_article_by_id i st).1.
Proof.
  intros Hi. rewrite !get_article_by_id_run. simpl.
  rewrite add_article_articles, scan_by_id_app. simpl.
  rewrite decide_False by (intros ?; by apply Hi).
  by destruct (scan_by_id (articles_of st) i).
Qed.

Lemma add_keeps_other_lookups_witness :
  2 ≠ next_id seed_state
  ∧ (get_article_by_id 2 (after (add_article "T" "c" "News") seed_state)).1
    = (get_article_by_id 2 seed_state).1.
Proof.
  assert (2 ≠ next_id seed_state) as Hne by (vm_compute; discriminate).
  split; [exact Hne|].
  exact (add_keeps_other_lookups seed_state "T" "c" "News" 2 Hne).
Defined.

(** X4. After [add_article t c cat], a category query returns what it
    returned before, followed by the new article when [cat] is the query
    up to letter case, and by nothing otherwise. *)
Theorem add_then_category (st : State) (t c cat query : string) :
  (get_articles_by_category query (after (add_article t c cat) st)).1
  = Ret (filter (λ a, lower (category a) = lower query) (articles_of st)
         ++ if decide (differ_in_case_only cat query)
            then [mkArticle (next_id st) t (strip c) cat] else [])
  ∧ (get_articles_by_category query st).1
    = Ret (filter (λ a, lower (category a) = lower query) (articles_of st)).
Proof.
  split; [|done]. rewrite get_articles_by_category_run. simpl.
  rewrite add_article_articles, filter_app. f_equal. f_equal.
  unfold new_article. rewrite filter_cons, filter_nil. simpl.
  destruct (decide (differ_in_case_only cat query)) as [Hd|Hd];
    [rewrite decide_True|rewrite decide_False];
    try done; by rewrite lower_eq_iff.
Qed.

(** X5. With several articles under one id, [get_article_by_id] returns
    the earliest: the article it returns has the id and no article before
    it in the collection has. *)
Theorem get_article_by_id_first (st st' : State) (i : Z) (a : Article) :
  get_article_by_id i st = (Ret (Some a), st') →
  ∃ before rest,
    articles_of st = before ++ a :: rest
    ∧ id a = i
    ∧ ∀ b, b ∈ before → id b ≠ i.
Proof.
  rewrite get_article_by_id_run.
  intros [= Hscan _]. induction (articles_of st) as [|b l IH]; [done|].
  simpl in Hscan. case_decide as Hb.
  - injection Hscan as ->. exists [], l. split; [done|]. split; [done|].
    by intros ? ?%elem_of_nil.
  - destruct (IH Hscan) as (before & rest & -> & Hid & Hbefore).
    exists (b :: before), rest. split; [done|]. split; [done|].
    intros x [->|Hx]%elem_of_cons; auto.
Qed.

Lemma get_article_by_id_first_witness :
  get_article_by_id 9 duplicate_ids_state
  = (Ret (Some (mkArticle 9 "b" "y" "B")), duplicate_ids_state)
  ∧ ∃ before rest,
      articles_of duplicate_ids_state
      = before ++ mkArticle 9 "b" "y" "B" :: rest
      ∧ id (mkArticle 9 "b" "y" "B") = 9
      ∧ ∀ b, b ∈ before → id b ≠ 9.
Proof.
  split; [reflexivity|].
  apply (get_article_by_id_first duplicate_ids_state duplicate_ids_state).
  reflexivity.
Defined.

(** ** [strip] *)

Lemma lstrip_head (s : string) :
  lstrip s = EmptyString
  ∨ ∃ c r, lstrip s = String c r ∧ isspace c = false.
Proof.
  induction s as [|c r IH]; simpl; [by left|].
  destruct (isspace c) eqn:Hc; [done|]. right. by exists c, r.
Qed.

Lemma rstrip_cons (c : ascii) (r : string) :
  isspace c = false → rstrip (String c r) = String c (rstrip r).
Proof. intros Hc. simpl. rewrite Hc. by destruct (rstrip r). Qed.

Lemma rstrip_idemp (s : string) : rstrip (rstrip s) = rstrip s.
Proof.
  induction s as [|c r IH]; simpl; [done|].
  destruct (rstrip r) as [|d r'] eqn:Hr.
  - destruct (isspace c) eqn:Hc; simpl; [done|]. by rewrite Hc.
  - change (rstrip (String c (String d r')))
      with (match rstrip (String d r') with
            | EmptyString =>
                if isspace c then EmptyString else String c EmptyString
            | r'' => String c r''
            end).
    by rewrite IH.
Qed.

Lemma strip_idemp (s : string) : strip (strip s) = strip s.
Proof.
  unfold strip. destruct (lstrip_head s) as [->|(c & r & -> & Hc)]; [done|].
  rewrite (rstrip_cons c r Hc). simpl lstrip. rewrite Hc.
  rewrite <- (rstrip_cons c r Hc). apply rstrip_idemp.
Qed.

Lemma first_char_strip (s : string) (c : ascii) :
  first_char (strip s) = Some c → isspace c = false.
Proof.
  unfold strip. destruct (lstrip_head s) as [->|(d & r & -> & Hd)]; [done|].
  rewrite (rstrip_cons d r Hd). simpl. by intros [= <-].
Qed.

Lemma last_char_rstrip (s : string) (c : ascii) :
  last_char (rstrip s) = Some c → isspace c = false.
Proof.
  induction s as [|d r IH]; simpl; [done|].
  destruct (rstrip r) as [|e r'] eqn:Hr.
  - destruct (isspace d) eqn:Hd; simpl; [done|]. by intros [= <-].
  - intros Hlast. apply IH. exact Hlast.
Qed.

Lemma length_lstrip (s : string) :
  (String.length (lstrip s) ≤ String.length s)%nat.
Proof.
  induction s as [|c r IH]; simpl; [done|]. destruct (isspace c); simpl; lia.
Qed.

Lemma length_rstrip (s : string) :
  (String.length (rstrip s) ≤ String.length s)%nat.
Proof.
  induction s as [|c r IH]; simpl; [done|].
  destruct (rstrip r); [destruct (isspace c)|]; simpl in *; lia.
Qed.

Lemma len_strip (s : string) : 0 ≤ len (strip s) ≤ len s.
Proof.
  unfold len, strip. pose proof (length_lstrip s).
  pose proof (length_rstrip (lstrip s)). lia.
Qed.

Lemma strip_all_space (s : string) :
  all_space s = true → strip s = EmptyString.
Proof.
  unfold strip. induction s as [|c r IH]; simpl; [done|].
  intros [Hc Hr]%andb_prop. rewrite Hc. auto.
Qed.

(** X6. The content [add_article] stores neither begins nor ends with
    white space, and the white space around the content passed in makes
    no difference to the state the call leaves. *)
Theorem add_article_content_stripped (st : State) (t c cat : string)
    (a : Article) :
  last (articles_of (after (add_article t c cat) st)) = Some a →
  (∀ ch, first_char (content a) = Some ch → isspace ch = false)
  ∧ (∀ ch, last_char (content a) = Some ch → isspace ch = false)
  ∧ len (content a) ≤ len c
  ∧ after (add_article t (content a) cat) st
    = after (add_article t c cat) st.
Proof.
  rewrite add_article_articles, last_snoc. intros [= <-]. simpl.
  split; [apply first_char_strip|]. split; [apply last_char_rstrip|].
  split; [apply len_strip|].
  unfold_ops. by rewrite strip_idemp.
Qed.

Lemma add_article_content_stripped_witness :
  last (articles_of
          (after (add_article "T" (NL +:+ "  body text " +:+ NL) "News")
                 seed_state))
  = Some (mkArticle 4 "T" "body text" "News")
  ∧ (∀ ch, first_char "body text" = Some ch → isspace ch = false)
  ∧ (∀ ch, last_char "body text" = Some ch → isspace ch = false)
  ∧ len "body text" ≤ len (NL +:+ "  body text " +:+ NL)
  ∧ after (add_article "T" "body text" "News") seed_state
    = after (add_article "T" (NL +:+ "  body text " +:+ NL) "News") seed_state.
Proof.
  split; [reflexivity|].
  apply (add_article_content_stripped seed_state "T"
           (NL +:+ "  body text " +:+ NL) "News"
           (mkArticle 4 "T" "body text" "News")).
  reflexivity.
Defined.

(** ** Constructing the store *)

(** X7. Constructing the store leaves every file but its own alone, and
    its own too when there is one: a well-formed file is loaded as it
    is, and a malformed one makes the constructor raise the parser's
    error instead of seeding the store again. *)
Theorem init_frame (path : string) (fs : FileSystem) :
  (∀ other, other ≠ path →
     files (__init__ path fs).2 !! other = files fs !! other)
  ∧ faults (__init__ path fs).2 = faults fs
  ∧ (∀ d, files fs !! path = Some (JsonDoc d) →
          __init__ path fs = (Ret (mkDB path d), fs))
  ∧ (files fs !! path = Some Malformed →
     __init__ path fs = (Raise JSONDecodeError, fs)).
Proof.
  unfold __init__, _load_data, mbind, M_bind, mret, M_ret, _save_data.
  destruct (files fs !! path) as [[d|]|] eqn:Hf; simpl.
  - repeat split; try done. by intros d' [= ->].
  - done.
  - destruct (faults fs !! path) as [[]|]; simpl; repeat split; try done;
      intros other Hother; by rewrite lookup_insert_ne.
Qed.

Lemma init_frame_witness :
  files (disk stale_state) !! "sample_texts.json" = Some Malformed
  ∧ __init__ "sample_texts.json" (disk stale_state)
    = (Raise JSONDecodeError, disk stale_state).
Proof.
  split; [reflexivity|].
  exact (proj2 (proj2 (proj2 (init_frame "sample_texts.json"
                                (disk stale_state))))
           eq_refl).
Defined.

(** X8. Constructing the store a second time changes nothing: once a
    construction has returned a store, constructing again over the same
    path, from the disk the first left, returns the same store and leaves
    that disk as it is. The seed data is written at most once. *)
Theorem init_twice (path : string) (fs fs' : FileSystem) (db : MockDatabase) :
  __init__ path fs = (Ret db, fs') →
  __init__ path fs' = (Ret db, fs').
Proof.
  unfold __init__, _load_data, mbind, M_bind, mret, M_ret, _save_data.
  destruct (files fs !! path) as [[d|]|] eqn:Hf.
  - intros [= <- <-]. by rewrite Hf.
  - done.
  - destruct (faults fs !! path) as [[]|]; [done..|].
    intros [= <- <-]. simpl. by rewrite lookup_insert_eq.
Qed.

Lemma init_twice_witness :
  __init__ "sample_texts.json" empty_disk
  = (Ret (self seed_state), disk seed_state)
  ∧ __init__ "sample_texts.json" (disk seed_state)
    = (Ret (self seed_state), disk seed_state).
Proof.
  split; [reflexivity|].
  apply (init_twice "sample_texts.json" empty_disk). reflexivity.
Defined.

(** X9. A call of [add_article] that returns rewrites the whole file:
    whatever the file held before, stale or malformed, a store
    constructed afresh from the disk the call leaves is the store in
    memory. *)
Theorem add_then_reload_is_memory (st st' : State) (t c cat : string)
    (new_id : Z) :
  add_article t c cat st = (Ret new_id, st') →
  __init__ (db_path (self st)) (disk st') = (Ret (self st'), disk st').
Proof.
  intros (-> & Hw & ->)%add_article_returned.
  pose proof (add_article_db_path st t c cat) as Hp.
  pose proof (add_article_disk st t c cat Hw) as Hd.
  set (st' := after (add_article t c cat) st) in *.
  rewrite Hd, <- Hp.
  unfold __init__, _load_data, mbind, M_bind, mret, M_ret. simpl.
  rewrite lookup_insert_eq. by destruct (self st').
Qed.

Lemma add_then_reload_is_memory_witness :
  add_article "T" "c" "News" stale_state
  = (Ret 4, after (add_article "T" "c" "News") stale_state)
  ∧ __init__ (db_path (self stale_state))
      (disk (after (add_article "T" "c" "News") stale_state))
    = (Ret (self (after (add_article "T" "c" "News") stale_state)),
       disk (after (add_article "T" "c" "News") stale_state)).
Proof.
  split; [reflexivity|].
  apply (add_then_reload_is_memory stale_state
           (after (add_article "T" "c" "News") stale_state)
           "T" "c" "News" 4).
  reflexivity.
Defined.

(** * The summarizer *)

Section SummarizerProperties.
Context {float pipe perr : Type}.
Variable pipeline :
  string → SummarizationConfig float → pipe → (perr + string) * pipe.
Variable str_perr : perr → string.

Lemma too_short_test (text : string) :
  bool_decide (text = EmptyString) || (len (strip text) <? 50)
  = (len (strip text) <? 50).
Proof.
  case_bool_decide as Ht; [|done]. subst text. reflexivity.
Qed.

Lemma summarize_short (config : SummarizationConfig float)
    (text : string) (rt : Runtime pipe) :
  len (strip text) < 50 →
  summarize pipeline str_perr config text rt
  = (inl (ValueError "Text must be at least 50 characters long"),
     mkRuntime (pipe_state rt)
       (log rt ++
        [(ERROR, "Error during summarization: Text must be at least 50 characters long")])).
Proof.
  intros Hlen%Z.ltb_lt. unfold summarize, summarize_body.
  by rewrite too_short_test, Hlen.
Qed.

Lemma summarize_long (config : SummarizationConfig float)
    (text : string) (rt : Runtime pipe) :
  50 ≤ len (strip text) →
  summarize pipeline str_perr config text rt
  = match pipeline (strip text) config (pipe_state rt) with
    | (inr s, p) =>
        (inr (mkResult (strip text) s (model_name config)
                       (len (strip text)) (len s)),
         mkRuntime p (log rt))
    | (inl e, p) =>
        (inl (PipelineError e),
         mkRuntime p
           (log rt
              ++ [(ERROR, "Error during summarization: " +:+ str_perr e)]))
    end.
Proof.
  intros Hlen%Z.ltb_ge. unfold summarize, summarize_body.
  rewrite too_short_test, Hlen. by destruct (pipeline _ _ _) as [[e|s] p].
Qed.

(** X10. [summarize] raises its [ValueError] exactly when the text,
    stripped, has fewer than 50 characters; it then has not called the
    pipeline, and has logged one error. *)
Theorem summarize_value_error (config : SummarizationConfig float)
    (text : string) (rt : Runtime pipe) :
  ((∃ msg, (summarize pipeline str_perr config text rt).1 = inl (ValueError msg))
   ↔ len (strip text) < 50)
  ∧ (len (strip text) < 50 →
     summarize pipeline str_perr config text rt
     = (inl (ValueError "Text must be at least 50 characters long"),
        mkRuntime (pipe_state rt)
          (log rt ++
           [(ERROR, "Error during summarization: Text must be at least 50 characters long")]))).
Proof.
  destruct (decide (len (strip text) < 50)) as [Hlen|Hlen].
  - rewrite (summarize_short config text rt Hlen).
    split; [|done]. split; [done|]. by eexists.
  - rewrite (summarize_long config text rt) by lia.
    split; [|done]. split; [|done].
    intros [msg Hmsg]. by destruct (pipeline _ _ _) as [[e|s] p].
Qed.

(** X11. What a returned summary says: the text it reports is the
    stripped input, at least 50 characters long and no longer than the
    input; both lengths are those of the texts beside them; the summary
    is what the pipeline made of the stripped text; nothing was
    logged. *)
Theorem summarize_returns (config : SummarizationConfig float)
    (text : string) (rt rt' : Runtime pipe) (r : SummaryResult) :
  summarize pipeline str_perr config text rt = (inr r, rt') →
  original_text r = strip text
  ∧ original_length r = len (original_text r)
  ∧ 50 ≤ original_length r ≤ len text
  ∧ summary_length r = len (summary r)
  ∧ model_used r = model_name config
  ∧ pipeline (strip text) config (pipe_state rt)
    = (inr (summary r), pipe_state rt')
  ∧ log rt' = log rt.
Proof.
  destruct (decide (len (strip text) < 50)) as [Hlen|Hlen].
  { by rewrite (summarize_short config text rt Hlen). }
  rewrite (summarize_long config text rt) by lia.
  pose proof (len_strip text).
  destruct (pipeline _ _ _) as [[e|s] p]; [done|].
  intros [= <- <-]. simpl. repeat split; done || lia.
Qed.

(** X12. White space around the text makes no difference to
    [summarize]: the stripped text gets the same outcome and leaves the
    same state. *)
Theorem summarize_strip (config : SummarizationConfig float)
    (text : string) (rt : Runtime pipe) :
  summarize pipeline str_perr config (strip text) rt = summarize pipeline str_perr config text rt.
Proof.
  unfold summarize, summarize_body.
  by rewrite !too_short_test, strip_idemp.
Qed.

(** X13. When the text is long enough and the pipeline raises,
    [summarize] raises the same exception, after logging it once; the
    pipeline's state is the one the failed call left. *)
Theorem summarize_pipeline_error (config : SummarizationConfig float)
    (text : string) (rt : Runtime pipe) (e : perr) (p : pipe) :
  50 ≤ len (strip text) →
  pipeline (strip text) config (pipe_state rt) = (inl e, p) →
  summarize pipeline str_perr config text rt
  = (inl (PipelineError e),
     mkRuntime p
       (log rt ++ [(ERROR, "Error during summarization: " +:+ str_perr e)])).
Proof.
  intros Hlen Hpipe. by rewrite (summarize_long config text rt Hlen), Hpipe.
Qed.

Lemma batch_loop_results (config : SummarizationConfig float)
    (texts : list string) (results : list SummaryResult) (rt : Runtime pipe) :
  batch_loop pipeline str_perr config texts results rt
  = (results ++ (batch_loop pipeline str_perr config texts [] rt).1,
     (batch_loop pipeline str_perr config texts [] rt).2).
Proof.
  revert results rt. induction texts as [|text rest IH]; intros results rt.
  - simpl. by rewrite app_nil_r.
  - simpl. destruct (summarize pipeline str_perr config text rt) as [[e|r] rt1];
      rewrite IH, (IH [_]); simpl; by rewrite <- app_assoc.
Qed.

Lemma batch_summarize_cons (config : SummarizationConfig float)
    (text : string) (rest : list string) (rt : Runtime pipe) :
  batch_summarize pipeline str_perr config (text :: rest) rt
  = match summarize pipeline str_perr config text rt with
    | (inr r, rt1) =>
        (r :: (batch_summarize pipeline str_perr config rest rt1).1,
         (batch_summarize pipeline str_perr config rest rt1).2)
    | (inl e, rt1) =>
        (error_result str_perr config text e
           :: (batch_summarize pipeline str_perr config rest
                 (logger_error ("Error summarizing text: "
                                +:+ str_error str_perr e) rt1)).1,
         (batch_summarize pipeline str_perr config rest
            (logger_error ("Error summarizing text: "
                           +:+ str_error str_perr e) rt1)).2)
    end.
Proof.
  unfold batch_summarize. simpl.
  destruct (summarize pipeline str_perr config text rt) as [[e|r] rt1];
    by rewrite batch_loop_results.
Qed.

(** X14. [batch_summarize] gives one record per text, in the order of
    the texts. The record of a text is either an error record, with the
    text as it was passed, its full length, a summary that starts with
    ["Error: "] and a summary length of 0, or the record of a summary,
    with the stripped text and its length, which is at least 50. *)
Theorem batch_summarize_records (config : SummarizationConfig float)
    (texts : list string) (rt : Runtime pipe) :
  Forall2
    (λ text r,
       model_used r = model_name config
       ∧ ((original_text r = text
           ∧ original_length r = len text
           ∧ summary_length r = 0
           ∧ ∃ e, summary r = "Error: " +:+ str_error str_perr e)
          ∨ (original_text r = strip text
             ∧ original_length r = len (strip text)
             ∧ 50 ≤ original_length r
             ∧ summary_length r = len (summary r))))
    texts (batch_summarize pipeline str_perr config texts rt).1.
Proof.
  revert rt. induction texts as [|text rest IH]; intros rt; [constructor|].
  rewrite batch_summarize_cons.
  destruct (summarize pipeline str_perr config text rt) as [[e|r] rt1] eqn:Hsum; simpl.
  - constructor; [|apply IH]. split; [done|]. left. by eauto.
  - constructor; [|apply IH].
    destruct (decide (len (strip text) < 50)) as [Hlen|Hlen].
    { by rewrite (summarize_short config text rt Hlen) in Hsum. }
    rewrite (summarize_long config text rt) in Hsum by lia.
    destruct (pipeline _ _ _) as [[e|s] p]; [done|].
    injection Hsum as <- <-. simpl. split; [done|]. right.
    repeat split; done || lia.
Qed.

(** X15. Summarizing a list of texts in one batch is summarizing its
    first part and then, from the state that leaves, the rest: the
    records are those of the two batches, one after the other. *)
Theorem batch_summarize_app (config : SummarizationConfig float)
    (texts1 texts2 : list string) (rt : Runtime pipe) :
  batch_summarize pipeline str_perr config (texts1 ++ texts2) rt
  = ((batch_summarize pipeline str_perr config texts1 rt).1
       ++ (batch_summarize pipeline str_perr config texts2
             (batch_summarize pipeline str_perr config texts1 rt).2).1,
     (batch_summarize pipeline str_perr config texts2
        (batch_summarize pipeline str_perr config texts1 rt).2).2).
Proof.
  revert rt. induction texts1 as [|text rest IH]; intros rt.
  - simpl. by destruct (batch_summarize pipeline str_perr config texts2 rt).
  - rewrite <- app_comm_cons, !batch_summarize_cons.
    destruct (summarize pipeline str_perr config text rt) as [[e|r] rt1]; by rewrite IH.
Qed.

(** X16. A batch of texts that are all too short never reaches the
    pipeline: each text gets the error record of the [ValueError], the
    pipeline's state is untouched, and each text leaves two records in
    the log, one from [summarize] and one from [batch_summarize]. *)
Theorem batch_summarize_all_too_short (config : SummarizationConfig float)
    (texts : list string) (rt : Runtime pipe) :
  Forall (λ text, len (strip text) < 50) texts →
  (batch_summarize pipeline str_perr config texts rt).1
  = (λ text,
       mkResult text "Error: Text must be at least 50 characters long"
                (model_name config) (len text) 0) <$> texts
  ∧ pipe_state (batch_summarize pipeline str_perr config texts rt).2 = pipe_state rt
  ∧ List.length (log (batch_summarize pipeline str_perr config texts rt).2)
    = (List.length (log rt) + 2 * List.length texts)%nat.
Proof.
  intros Hshort. revert rt.
  induction Hshort as [|text rest Htext _ IH]; intros rt; [simpl; auto|].
  rewrite batch_summarize_cons.
  rewrite (summarize_short config text rt Htext).
  cbv beta iota.
  match goal with
  | |- context [batch_summarize _ _ _ _ ?rt1] =>
      destruct (IH rt1) as (Hres & Hpipe & Hlog)
  end.
  cbn [fst snd]. rewrite Hres, Hpipe, Hlog.
  split; [done|]. split; [done|].
  cbn [logger_error log]. rewrite !length_app. simpl. lia.
Qed.
End SummarizerProperties.

Example toy_summary :
  summarize toy_pipeline toy_str toy_config long_text (toy_runtime 0)
  = (inr (mkResult
            "The quick brown fox jumps over the lazy dog, again and again."
            "The quick brown fox " "toy" 61 20),
     toy_runtime 1).
Proof. reflexivity. Qed.

Lemma summarize_value_error_witness :
  len (strip (indent +:+ indent +:+ indent)) < 50
  ∧ summarize toy_pipeline toy_str toy_config (indent +:+ indent +:+ indent)
      (toy_runtime 0)
    = (inl (ValueError "Text must be at least 50 characters long"),
       mkRuntime 0%nat
         [(ERROR, "Error during summarization: Text must be at least 50 characters long")]).
Proof.
  assert (len (strip (indent +:+ indent +:+ indent)) < 50) as Hlen
    by (vm_compute; reflexivity).
  split; [exact Hlen|].
  exact (proj2 (summarize_value_error toy_pipeline toy_str toy_config
                  (indent +:+ indent +:+ indent) (toy_runtime 0)) Hlen).
Defined.

Lemma summarize_returns_witness :
  summarize toy_pipeline toy_str toy_config long_text (toy_runtime 0)
  = (inr (mkResult
            "The quick brown fox jumps over the lazy dog, again and again."
            "The quick brown fox " "toy" 61 20),
     toy_runtime 1)
  ∧ 50 ≤ 61 ≤ len long_text
  ∧ toy_pipeline (strip long_text) toy_config 0%nat
    = (inr "The quick brown fox ", 1%nat).
Proof.
  split; [reflexivity|].
  destruct (summarize_returns toy_pipeline toy_str toy_config long_text
              (toy_runtime 0) (toy_runtime 1)
              (mkResult
                 "The quick brown fox jumps over the lazy dog, again and again."
                 "The quick brown fox " "toy" 61 20)
              eq_refl)
    as (_ & _ & Hbound & _ & _ & Hpipe & _).
  split; [exact Hbound|exact Hpipe].
Defined.

Lemma summarize_pipeline_error_witness :
  50 ≤ len (strip long_text)
  ∧ toy_pipeline (strip long_text) toy_config 2%nat
    = (inl "out of memory", 3%nat)
  ∧ summarize toy_pipeline toy_str toy_config long_text (toy_runtime 2)
    = (inl (PipelineError "out of memory"),
       mkRuntime 3%nat
         [(ERROR, "Error during summarization: out of memory")]).
Proof.
  assert (50 ≤ len (strip long_text)) as Hlen by (vm_compute; discriminate).
  split; [exact Hlen|]. split; [reflexivity|].
  exact (summarize_pipeline_error toy_pipeline toy_str toy_config long_text
           (toy_runtime 2) "out of memory" 3%nat Hlen eq_refl).
Defined.

Lemma batch_summarize_all_too_short_witness :
  Forall (λ text, len (strip text) < 50) ["short"; indent +:+ indent +:+ indent]
  ∧ (batch_summarize toy_pipeline toy_str toy_config
       ["short"; indent +:+ indent +:+ indent] (toy_runtime 0)).1
    = [mkResult "short" "Error: Text must be at least 50 characters long"
                "toy" 5 0;
       mkResult (indent +:+ indent +:+ indent)
                "Error: Text must be at least 50 characters long" "toy" 72 0]
  ∧ pipe_state (batch_summarize toy_pipeline toy_str toy_config
                  ["short"; indent +:+ indent +:+ indent] (toy_runtime 0)).2
    = 0%nat.
Proof.
  assert (Forall (λ text, len (strip text) < 50)
            ["short"; indent +:+ indent +:+ indent]) as Hshort.
  { repeat constructor. }
  split; [exact Hshort|].
  destruct (batch_summarize_all_too_short toy_pipeline toy_str toy_config
              ["short"; indent +:+ indent +:+ indent] (toy_runtime 0) Hshort)
    as (Hres & Hpipe & _).
  split; [exact Hres|exact Hpipe].
Defined.

Example toy_batch :
  batch_summarize toy_pipeline toy_str toy_config
    [long_text; "short"; long_text; long_text] (toy_runtime 0)
  = ([mkResult
        "The quick brown fox jumps over the lazy dog, again and again."
        "The quick brown fox " "toy" 61 20;
      mkResult "short" "Error: Text must be at least 50 characters long"
               "toy" 5 0;
      mkResult
        "The quick brown fox jumps over the lazy dog, again and again."
        "The quick brown fox " "toy" 61 20;
      mkResult long_text "Error: out of memory" "toy" 66 0],
     mkRuntime 3%nat
       [(ERROR, "Error during summarization: Text must be at least 50 characters long");
        (ERROR, "Error summarizing text: Text must be at least 50 characters long");
        (ERROR, "Error during summarization: out of memory");
        (ERROR, "Error summarizing text: out of memory")]).
Proof. reflexivity. Qed.

(** * src/config.py *)

Lemma AVAILABLE_MODELS_lookup (key : string) (c : config.ModelConfig) :
  config.AVAILABLE_MODELS !! key = Some c →
  c ∈ [config.bart_large_cnn; config.bart_base_cnn; config.t5_small;
       config.t5_base; config.pegasus_cnn].
Proof.
  unfold config.AVAILABLE_MODELS.
  repeat (rewrite lookup_insert; case_decide;
          [intros [= <-]; set_solver|]).
  by rewrite lookup_empty.
Qed.

(** X17. [get_model_config] never fails: a key of the table gets its
    entry, every other key silently gets the BART Large CNN entry; and
    whatever the key, the configuration returned has
    [0 < min_length < max_length]. *)
Theorem get_model_config_total (key : string) :
  ∃ c,
    config.get_model_config key = Some c
    ∧ (config.AVAILABLE_MODELS !! key = Some c
       ∨ (config.AVAILABLE_MODELS !! key = None
          ∧ c = config.bart_large_cnn))
    ∧ 0 < config.min_length c < config.max_length c.
Proof.
  unfold config.get_model_config.
  change (config.AVAILABLE_MODELS !! "bart-large-cnn")
    with (Some config.bart_large_cnn). simpl.
  destruct (config.AVAILABLE_MODELS !! key) as [c|] eqn:Hkey; simpl.
  - exists c. split; [done|]. split; [by left|].
    apply AVAILABLE_MODELS_lookup in Hkey.
    repeat (apply elem_of_cons in Hkey as [->|Hkey]; [done|]).
    by apply elem_of_nil in Hkey.
  - exists config.bart_large_cnn. split; [done|]. split; [by right|done].
Qed.

Example get_model_config_examples :
  config.get_model_config "t5-small" = Some config.t5_small
  ∧ config.get_model_config "T5-Small" = Some config.bart_large_cnn
  ∧ config.get_model_config "" = Some config.bart_large_cnn.
Proof. repeat split; reflexivity. Qed.

Lemma validate_config_true {V} (cfg : gmap string V) :
  config.validate_config cfg = true
  ↔ is_Some (cfg !! "model") ∧ is_Some (cfg !! "max_length")
    ∧ is_Some (cfg !! "min_length").
Proof.
  unfold config.validate_config. simpl.
  rewrite !andb_true_iff, !bool_decide_eq_true. tauto.
Qed.

(** X18. [validate_config] looks at keys only, and only asks for more:
    a configuration that passes still passes with entries added or
    values replaced, and the values themselves never matter. *)
Theorem validate_config_monotone {V W} (cfg cfg' : gmap string V)
    (f : V → W) :
  (cfg ⊆ cfg' → config.validate_config cfg = true →
   config.validate_config cfg' = true)
  ∧ ((dom cfg ⊆ dom cfg') → config.validate_config cfg = true →
     config.validate_config cfg' = true)
  ∧ config.validate_config (f <$> cfg) = config.validate_config cfg.
Proof.
  assert (∀ c c' : gmap string V, dom c ⊆ dom c' →
            config.validate_config c = true →
            config.validate_config c' = true) as Hdom.
  { intros c c' Hsub. rewrite !validate_config_true.
    rewrite <- !elem_of_dom. intros (? & ? & ?).
    repeat split; by apply Hsub. }
  split; [|split].
  - intros Hsub. apply Hdom. by apply subseteq_dom.
  - apply Hdom.
  - unfold config.validate_config. simpl.
    assert (∀ key, bool_decide (is_Some (f <$> cfg !! key))
                   = bool_decide (is_Some (cfg !! key))) as Hkey
      by (intros key; apply bool_decide_ext, fmap_is_Some).
    by rewrite !lookup_fmap, !Hkey.
Qed.

Lemma validate_config_monotone_witness :
  dom ({[ "model" := 1; "max_length" := 2; "min_length" := 3 ]} : gmap string Z)
  ⊆ dom ({[ "model" := 0; "max_length" := 0; "min_length" := 0;
            "device" := 0 ]} : gmap string Z)
  ∧ config.validate_config
      ({[ "model" := 1; "max_length" := 2; "min_length" := 3 ]} : gmap string Z)
    = true
  ∧ config.validate_config
      ({[ "model" := 0; "max_length" := 0; "min_length" := 0;
          "device" := 0 ]} : gmap string Z)
    = true.
Proof.
  assert (dom ({[ "model" := 1; "max_length" := 2; "min_length" := 3 ]}
                : gmap string Z)
          ⊆ dom ({[ "model" := 0; "max_length" := 0; "min_length" := 0;
                    "device" := 0 ]} : gmap string Z)) as Hsub.
  { apply (bool_decide_unpack _). vm_compute. exact I. }
  split; [exact Hsub|]. split; [reflexivity|].
  exact (proj1 (proj2 (validate_config_monotone
                         ({[ "model" := 1; "max_length" := 2;
                             "min_length" := 3 ]} : gmap string Z)
                         ({[ "model" := 0; "max_length" := 0;
                             "min_length" := 0; "device" := 0 ]}
                            : gmap string Z)
                         (λ n, n)))
           Hsub eq_refl).
Defined.

Section EnvironmentProperties.
Variable int : string → option Z.

Lemma getenv_truthy_insert_empty (environ : gmap string string)
    (var name : string) :
  config.getenv_truthy (<[var := EmptyString]> environ) name
  = config.getenv_truthy (delete var environ) name.
Proof.
  unfold config.getenv_truthy.
  destruct (decide (var = name)) as [->|Hne].
  - by rewrite lookup_insert_eq, lookup_delete_eq.
  - by rewrite lookup_insert_ne, lookup_delete_ne.
Qed.

(** The result is a function of the three variables, read through the
    truth test of the source. *)
Lemma get_environment_config_ext (e1 e2 : gmap string string) :
  (∀ name, name ∈ ["SUMMARIZATION_MODEL"; "ENABLE_GPU"; "MAX_TEXT_LENGTH"] →
           config.getenv_truthy e1 name = config.getenv_truthy e2 name) →
  config.get_environment_config int e1
  = config.get_environment_config int e2.
Proof.
  intros Hsame. unfold config.get_environment_config.
  rewrite !Hsame; [done|set_solver..].
Qed.

(** X19. What [get_environment_config] returns never passes
    [validate_config]: the environment supplies no summary lengths. *)
Theorem environment_config_never_valid (environ : gmap string string) :
  config.validate_config (config.get_environment_config int environ)
  = false.
Proof.
  assert (config.get_environment_config int environ !! "max_length" = None)
    as Hmax.
  { unfold config.get_environment_config.
    destruct (config.getenv_truthy environ "SUMMARIZATION_MODEL");
      destruct (config.getenv_truthy environ "ENABLE_GPU");
      destruct (config.getenv_truthy environ "MAX_TEXT_LENGTH") as [v|];
      try destruct (int v); by rewrite ?lookup_insert_ne, lookup_empty. }
  apply not_true_is_false. rewrite validate_config_true.
  intros (_ & [x Hx] & _). by rewrite Hmax in Hx.
Qed.

(** X20. Only the three variables count, and a variable set to the
    empty string counts as unset: setting any variable to [""] gives
    what removing it gives, and setting any other variable changes
    nothing. *)
Theorem environment_config_ignores (environ : gmap string string)
    (var v : string) :
  config.get_environment_config int (<[var := EmptyString]> environ)
  = config.get_environment_config int (delete var environ)
  ∧ (var ∉ ["SUMMARIZATION_MODEL"; "ENABLE_GPU"; "MAX_TEXT_LENGTH"] →
     config.get_environment_config int (<[var := v]> environ)
     = config.get_environment_config int environ).
Proof.
  split.
  - apply get_environment_config_ext. intros name _.
    apply getenv_truthy_insert_empty.
  - intros Hvar. apply get_environment_config_ext. intros name Hname.
    unfold config.getenv_truthy. rewrite lookup_insert_ne; [done|].
    by intros ->.
Qed.

(** X21. [enable_gpu] is true exactly when [ENABLE_GPU] spells "true"
    in some mix of cases; any other non-empty value, ["1"] and ["yes"]
    among them, stores [False]. *)
Theorem enable_gpu_true_up_to_case (environ : gmap string string)
    (v : string) :
  environ !! "ENABLE_GPU" = Some v →
  v ≠ EmptyString →
  config.get_environment_config int environ !! "enable_gpu"
  = Some (config.VBool (bool_decide (differ_in_case_only v "true"))).
Proof.
  intros Hv Hne. unfold config.get_environment_config.
  assert (config.getenv_truthy environ "ENABLE_GPU" = Some v) as ->.
  { unfold config.getenv_truthy. rewrite Hv. by destruct v. }
  assert (bool_decide (lower v = "true")
          = bool_decide (differ_in_case_only v "true")) as ->.
  { apply bool_decide_ext. by rewrite <- lower_eq_iff. }
  destruct (config.getenv_truthy environ "MAX_TEXT_LENGTH") as [m|];
    [destruct (int m); [rewrite lookup_insert_ne by done|]|];
    by rewrite lookup_insert_eq.
Qed.

(** X22. A [MAX_TEXT_LENGTH] that [int] rejects is dropped without an
    error: the result is the one of an environment without the
    variable, and has no ["max_text_length"]. One that [int] accepts is
    stored as that integer. *)
Theorem max_text_length_parse (environ : gmap string string) (v : string) :
  environ !! "MAX_TEXT_LENGTH" = Some v →
  v ≠ EmptyString →
  match int v with
  | None =>
      config.get_environment_config int environ
      = config.get_environment_config int (delete "MAX_TEXT_LENGTH" environ)
      ∧ config.get_environment_config int environ !! "max_text_length"
        = None
  | Some n =>
      config.get_environment_config int environ !! "max_text_length"
      = Some (config.VInt n)
  end.
Proof.
  intros Hv Hne.
  assert (config.getenv_truthy environ "MAX_TEXT_LENGTH" = Some v) as Hget.
  { unfold config.getenv_truthy. rewrite Hv. by destruct v. }
  destruct (int v) as [n|] eqn:Hint.
  - unfold config.get_environment_config. rewrite Hget, Hint.
    by rewrite lookup_insert_eq.
  - assert (config.getenv_truthy (delete "MAX_TEXT_LENGTH" environ)
              "MAX_TEXT_LENGTH" = None) as Hdel.
    { unfold config.getenv_truthy. by rewrite lookup_delete_eq. }
    assert (∀ name, name ≠ "MAX_TEXT_LENGTH" →
              config.getenv_truthy (delete "MAX_TEXT_LENGTH" environ) name
              = config.getenv_truthy environ name) as Hother.
    { intros name Hname. unfold config.getenv_truthy.
      by rewrite lookup_delete_ne. }
    unfold config.get_environment_config.
    rewrite Hget, Hint, Hdel, !Hother by done.
    split; [done|].
    destruct (config.getenv_truthy environ "SUMMARIZATION_MODEL");
      destruct (config.getenv_truthy environ "ENABLE_GPU");
      by rewrite ?lookup_insert_ne, lookup_empty.
Qed.
End EnvironmentProperties.

Example toy_environment_config :
  config.get_environment_config toy_int toy_environ
  = <["model" := config.VStr "t5-small"]>
      (<["enable_gpu" := config.VBool true]> ∅)
  ∧ config.get_environment_config toy_int
      (<["MAX_TEXT_LENGTH" := "5000"]> (<["ENABLE_GPU" := "1"]> toy_environ))
    = <["model" := config.VStr "t5-small"]>
        (<["enable_gpu" := config.VBool false]>
           (<["max_text_length" := config.VInt 5000]> ∅)).
Proof. split; reflexivity. Qed.

Lemma environment_config_ignores_witness :
  ("HOME" ∉ ["SUMMARIZATION_MODEL"; "ENABLE_GPU"; "MAX_TEXT_LENGTH"])
  ∧ config.get_environment_config toy_int (<["HOME" := "/tmp"]> toy_environ)
    = config.get_environment_config toy_int toy_environ.
Proof.
  assert ("HOME" ∉ ["SUMMARIZATION_MODEL"; "ENABLE_GPU"; "MAX_TEXT_LENGTH"])
    as Hvar.
  { apply (bool_decide_unpack _). vm_compute. exact I. }
  split; [exact Hvar|].
  exact (proj2 (environment_config_ignores toy_int toy_environ "HOME" "/tmp")
           Hvar).
Defined.

Lemma enable_gpu_true_up_to_case_witness :
  toy_environ !! "ENABLE_GPU" = Some "TRUE"
  ∧ "TRUE" ≠ EmptyString
  ∧ config.get_environment_config toy_int toy_environ !! "enable_gpu"
    = Some (config.VBool (bool_decide (differ_in_case_only "TRUE" "true"))).
Proof.
  assert ("TRUE" ≠ EmptyString) as Hne by discriminate.
  split; [reflexivity|]. split; [exact Hne|].
  exact (enable_gpu_true_up_to_case toy_int toy_environ "TRUE" eq_refl Hne).
Defined.

Lemma max_text_length_parse_witness :
  toy_environ !! "MAX_TEXT_LENGTH" = Some "5000 chars"
  ∧ "5000 chars" ≠ EmptyString
  ∧ toy_int "5000 chars" = None
  ∧ config.get_environment_config toy_int toy_environ
    = config.get_environment_config toy_int
        (delete "MAX_TEXT_LENGTH" toy_environ).
Proof.
  assert ("5000 chars" ≠ EmptyString) as Hne by discriminate.
  split; [reflexivity|]. split; [exact Hne|]. split; [reflexivity|].
  exact (proj1 (max_text_length_parse toy_int toy_environ "5000 chars"
                  eq_refl Hne)).
Defined.

(** * src/app.py *)

(** X23. [load_sample_texts] always returns a list and never changes the
    disk. Without a file it returns the empty list and shows nothing;
    over a malformed file it returns the empty list after showing one
    error; over a well-formed file it returns the document's articles,
    or the empty list when the document has no ["articles"] key, and
    shows nothing. *)
Theorem load_sample_texts_total (s : app.AppState) :
  ∃ l s',
    app.load_sample_texts s = (Ret l, s')
    ∧ app.app_disk s' = app.app_disk s
    ∧ match files (app.app_disk s) !! "sample_texts.json" with
      | Some (JsonDoc d) =>
          s' = s
          ∧ match d !! "articles" with Some arts => l = arts | None => l = [] end
      | Some Malformed =>
          l = []
          ∧ app.shown s'
            = app.shown s
                ++ [app.st_error "Error loading sample texts: " JSONDecodeError]
      | None => s' = s ∧ l = []
      end.
Proof.
  unfold app.load_sample_texts, app.try_except.
  destruct (files (app.app_disk s) !! "sample_texts.json") as [[d|]|];
    do 2 eexists; (split; [reflexivity|]); simpl; split; try done.
  split; [done|]. by destruct (d !! "articles").
Qed.

(** X24. Over a well-formed file, the web page lists what the store
    lists: [load_sample_texts] returns the articles that
    [get_all_articles] returns on a store constructed over
    ["sample_texts.json"] from the same disk. *)
Theorem load_sample_texts_matches_store (fs : FileSystem) (d : Data)
    (ui : list app.ui_event) :
  files fs !! "sample_texts.json" = Some (JsonDoc d) →
  ∃ db,
    __init__ "sample_texts.json" fs = (Ret db, fs)
    ∧ (app.load_sample_texts (app.mkApp fs ui)).1
      = (get_all_articles (mkState db fs)).1.
Proof.
  intros Hfile. exists (mkDB "sample_texts.json" d). split.
  - unfold __init__, _load_data, mbind, M_bind, mret, M_ret.
    by rewrite Hfile.
  - unfold app.load_sample_texts, app.try_except. simpl. by rewrite Hfile.
Qed.

Lemma load_sample_texts_matches_store_witness :
  files (disk seed_state) !! "sample_texts.json" = Some (JsonDoc default_data)
  ∧ ∃ db,
      __init__ "sample_texts.json" (disk seed_state) = (Ret db, disk seed_state)
      ∧ (app.load_sample_texts (app.mkApp (disk seed_state) [])).1
        = (get_all_articles (mkState db (disk seed_state))).1.
Proof.
  split; [reflexivity|].
  apply (load_sample_texts_matches_store (disk seed_state) default_data []).
  reflexivity.
Defined.

(** X25. What a store over ["sample_texts.json"] adds, the web page
    shows: when [add_article] returns, [load_sample_texts] on the disk it
    leaves returns the store's earlier articles followed by the new
    one. *)
Theorem load_sample_texts_after_add (st st' : State) (t c cat : string)
    (new_id : Z) (ui : list app.ui_event) :
  db_path (self st) = "sample_texts.json" →
  add_article t c cat st = (Ret new_id, st') →
  app.load_sample_texts (app.mkApp (disk st') ui)
  = (Ret (articles_of st ++ [mkArticle new_id t (strip c) cat]),
     app.mkApp (disk st') ui).
Proof.
  intros Hpath (-> & Hw & ->)%add_article_returned.
  unfold app.load_sample_texts, app.try_except. simpl.
  rewrite (add_article_disk st t c cat Hw), Hpath. simpl.
  rewrite lookup_insert_eq, add_article_self. simpl.
  by rewrite lookup_insert_eq.
Qed.

Lemma load_sample_texts_after_add_witness :
  db_path (self seed_state) = "sample_texts.json"
  ∧ add_article "Title" "  body " "News" seed_state
    = (Ret 4, after (add_article "Title" "  body " "News") seed_state)
  ∧ app.load_sample_texts
      (app.mkApp (disk (after (add_article "Title" "  body " "News")
                              seed_state)) [])
    = (Ret (articles_of seed_state
            ++ [mkArticle 4 "Title" (strip "  body ") "News"]),
       app.mkApp (disk (after (add_article "Title" "  body " "News")
                              seed_state)) []).
Proof.
  split; [reflexivity|]. split; [reflexivity|].
  exact (load_sample_texts_after_add seed_state
           (after (add_article "Title" "  body " "News") seed_state)
           "Title" "  body " "News" 4 [] eq_refl eq_refl).
Defined.

(** X26. On a first run the web page does not seed the store: without a
    file [load_sample_texts] returns the empty list and creates nothing,
    and it returns the three seed articles once a store has been
    constructed over ["sample_texts.json"]. *)
Theorem load_sample_texts_first_run (fs : FileSystem)
    (ui : list app.ui_event) :
  files fs !! "sample_texts.json" = None →
  faults fs !! "sample_texts.json" = None →
  app.load_sample_texts (app.mkApp fs ui) = (Ret [], app.mkApp fs ui)
  ∧ ∃ db fs',
      __init__ "sample_texts.json" fs = (Ret db, fs')
      ∧ app.load_sample_texts (app.mkApp fs' ui)
        = (Ret default_articles, app.mkApp fs' ui).
Proof.
  intros Hnone Hok. split.
  { unfold app.load_sample_texts, app.try_except. simpl. by rewrite Hnone. }
  exists (mkDB "sample_texts.json" default_data),
    (mkFS (<["sample_texts.json" := JsonDoc default_data]> (files fs))
          (faults fs)).
  split.
  - unfold __init__, _load_data, mbind, M_bind, mret, M_ret, _save_data.
    by rewrite Hnone, Hok.
  - unfold app.load_sample_texts, app.try_except. simpl.
    by rewrite lookup_insert_eq.
Qed.

Lemma load_sample_texts_first_run_witness :
  files empty_disk !! "sample_texts.json" = None
  ∧ faults empty_disk !! "sample_texts.json" = None
  ∧ app.load_sample_texts (app.mkApp empty_disk [])
    = (Ret [], app.mkApp empty_disk [])
  ∧ ∃ db fs',
      __init__ "sample_texts.json" empty_disk = (Ret db, fs')
      ∧ app.load_sample_texts (app.mkApp fs' [])
        = (Ret default_articles, app.mkApp fs' []).
Proof.
  split; [reflexivity|]. split; [reflexivity|].
  exact (load_sample_texts_first_run empty_disk [] eq_refl eq_refl).
Defined.
